(** * RunningAverage (uint16_t variant): a shallow embedding and its properties

    The class [RunningAverage] of RunningAverage.h / RunningAverage.cpp keeps
    the last [_partial] samples of a stream in a circular buffer of [_size]
    slots, together with a running sum and the minimum and the maximum seen.

    Modelling choices.
    - Every field is a [uint16_t] (RunningAverage.h, lines 71-78); it is a [Z]
      here and every assignment to it is reduced modulo 65536 where the C++
      value can leave the range.
    - [_array] is a pointer: [None] is NULL, [Some a] is the block, a list of
      [_size] slots.  The constructor asks [malloc] for
      [_size * sizeof(float)] bytes, which is room for more than [_size]
      elements of [uint16_t] (twice as many with a 4-byte [float]); the class
      initialises and uses the first [_size] of them only, and these are the
      block of the model.  Reading or writing a slot is a partial operation:
      a function of the class returns [None] when it touches anything but
      one of these [_size] slots (the rest of the allocation, which nothing
      ever initialised, or memory outside the allocation) or dereferences
      NULL, and [Some] of its result otherwise.  A [None] is therefore not
      always an access outside the allocation; a [Some] is always an access
      to a slot the class has written.
    - A [for] loop over a [uint16_t] counter is a structural recursion on the
      number of iterations left; the counter itself never wraps.
    - Where the header and the .cpp disagree on a type, the header (the class
      declaration) is followed for parameters and results, the .cpp for the
      bodies and their local variables.
    - [return NAN] is the result [NaN].
    - Division is between unsigned operands; it is [Z.quot]. *)

From stdpp Require Import base option list numbers.

Local Open Scope Z_scope.

Module RunningAverage.

(** ** Machine integers and memory *)

(** Conversion to [uint16_t]. *)
Definition wrap16 (z : Z) : Z := z mod 65536.

(** The values of [uint16_t]. *)
Definition is_u16 (z : Z) : Prop := 0 <= z < 65536.

(** [p[i]] as an rvalue.  An index is a [uint16_t], never negative. *)
Definition load (p : option (list Z)) (i : Z) : option Z :=
  a ← p; a !! Z.to_nat i.

(** [p[i] = v]; the result is the block after the write. *)
Definition store (p : option (list Z)) (i v : Z) : option (list Z) :=
  a ← p;
  if decide (Z.to_nat i < length a)%nat then Some (<[Z.to_nat i := v]> a) else None.

(** What a function declared [uint16_t] (or [float]) hands back when the
    source has a [return NAN] path. *)
Inductive result : Type :=
  | NaN
  | Val (v : Z).

(** ** The object *)

Record t : Type := mk {
  _size : Z;
  _count : Z;
  _index : Z;
  _partial : Z;
  _sum : Z;
  _array : option (list Z);
  _min : Z;
  _max : Z
}.

(** ** RunningAverage::clear *)

(** [for (uint16_t i = _size; i > 0; ) _array[--i] = 0;] with [i] iterations
    left. *)
Fixpoint clear_loop (i : nat) (p : option (list Z)) : option (option (list Z)) :=
  match i with
  | O => Some p
  | S i' => a ← store p (Z.of_nat i') 0; clear_loop i' (Some a)
  end.

Definition clear (s : t) : option t :=
  p ← clear_loop (Z.to_nat (_size s)) (_array s);
  Some (mk (_size s) 0 0 (_partial s) 0 p 0 0).

(** ** The constructor

    [block] is what [malloc] returned: [None] for NULL, otherwise the fresh
    block with whatever it happens to contain. *)
Definition new (size : Z) (block : option (list Z)) : option t :=
  let size' := match block with None => 0 | Some _ => size end in
  clear (mk size' 0 0 size 0 block 0 0).

(** ** RunningAverage::addValue *)

Definition addValue (value : Z) (s : t) : option t :=
  match _array s with
  | None => Some s
  | Some _ =>
    old ← load (_array s) (_index s);
    let sum1 := wrap16 (_sum s - old) in
    a ← store (_array s) (_index s) value;
    cur ← load (Some a) (_index s);
    let sum2 := wrap16 (sum1 + cur) in
    let index1 := wrap16 (_index s + 1) in
    let index2 := if index1 =? _partial s then 0 else index1 in
    let min' :=
      if _count s =? 0 then value
      else if value <? _min s then value else _min s in
    let max' :=
      if _count s =? 0 then value
      else if value <? _min s then _max s
      else if value >? _max s then value else _max s in
    let count' :=
      if _count s <? _partial s then wrap16 (_count s + 1) else _count s in
    Some (mk (_size s) count' index2 (_partial s) sum2 (Some a) min' max')
  end.

(** ** RunningAverage::getAverage *)

(** [for (uint16_t i = 0; i < _count; i++) _sum += _array[i];] from [i] on,
    with [n] iterations left. *)
Fixpoint getAverage_loop (p : option (list Z)) (n : nat) (i sum : Z) : option Z :=
  match n with
  | O => Some sum
  | S n' => x ← load p i; getAverage_loop p n' (i + 1) (wrap16 (sum + x))
  end.

Definition getAverage (s : t) : option (result * t) :=
  if _count s =? 0 then Some (NaN, s)
  else
    sum ← getAverage_loop (_array s) (Z.to_nat (_count s)) 0 0;
    Some (Val (sum ÷ _count s),
          mk (_size s) (_count s) (_index s) (_partial s) sum (_array s)
             (_min s) (_max s)).

(** ** RunningAverage::getFastAverage *)

Definition getFastAverage (s : t) : Z :=
  if _count s =? 0 then 0 else _sum s ÷ _count s.

(** ** getMin, getMax (inline in the header) *)

Definition getMin (s : t) : Z := _min s.
Definition getMax (s : t) : Z := _max s.

(** ** RunningAverage::getMinInBuffer, getMaxInBuffer *)

Fixpoint getMinInBuffer_loop (p : option (list Z)) (n : nat) (i m : Z) : option Z :=
  match n with
  | O => Some m
  | S n' =>
    x ← load p i;
    getMinInBuffer_loop p n' (i + 1) (if x <? m then x else m)
  end.

Definition getMinInBuffer (s : t) : option Z :=
  if _count s =? 0 then Some 0
  else
    m ← load (_array s) 0;
    getMinInBuffer_loop (_array s) (Z.to_nat (_count s - 1)) 1 m.

Fixpoint getMaxInBuffer_loop (p : option (list Z)) (n : nat) (i m : Z) : option Z :=
  match n with
  | O => Some m
  | S n' =>
    x ← load p i;
    getMaxInBuffer_loop p n' (i + 1) (if x >? m then x else m)
  end.

Definition getMaxInBuffer (s : t) : option Z :=
  if _count s =? 0 then Some 0
  else
    m ← load (_array s) 0;
    getMaxInBuffer_loop (_array s) (Z.to_nat (_count s - 1)) 1 m.

(** ** RunningAverage::getElement *)

Definition getElement (index : Z) (s : t) : option Z :=
  if _count s =? 0 then Some 0 else load (_array s) index.

(** ** RunningAverage::fillValue *)

Fixpoint fillValue_loop (i : nat) (value : Z) (s : t) : option t :=
  match i with
  | O => Some s
  | S i' => s' ← addValue value s; fillValue_loop i' value s'
  end.

Definition fillValue (value number : Z) (s : t) : option t :=
  s0 ← clear s;
  let n := if number >? _partial s0 then _partial s0 else number in
  fillValue_loop (Z.to_nat n) value s0.

(** ** RunningAverage::getValue *)

Definition getValue (position : Z) (s : t) : option Z :=
  if _count s =? 0 then Some 0
  else if position >=? _count s then Some 0
  else
    let pos := wrap16 (position + _index s) in
    let pos' := if pos >=? _count s then wrap16 (pos - _count s) else pos in
    load (_array s) pos'.

(** ** RunningAverage::setPartial *)

Definition setPartial (partial : Z) (s : t) : option t :=
  let partial' :=
    if (partial =? 0) || (partial >? _size s) then _size s else partial in
  clear (mk (_size s) (_count s) (_index s) partial' (_sum s) (_array s)
            (_min s) (_max s)).

(** ** RunningAverage::getAverageLast

    The accumulator is the local [float _sum]; it holds integers only and is
    modelled by the exact integer, which is what a [float] holds as long as
    the sum stays below 2^24 (256 samples of 65535 fit).  The quotient is
    handed back through the [uint16_t] result of the header, that is,
    truncated; below 2^24 the rounding of the [float] division never reaches
    the next integer, so the truncated quotient is the integer quotient. *)
Fixpoint getAverageLast_loop (s : t) (n : nat) (idx sum : Z) : option Z :=
  match n with
  | O => Some sum
  | S n' =>
    let idx1 := if idx =? 0 then _size s else idx in
    let idx2 := wrap16 (idx1 - 1) in
    x ← load (_array s) idx2;
    getAverageLast_loop s n' idx2 (sum + x)
  end.

Definition getAverageLast (count : Z) (s : t) : option result :=
  let cnt := if count >? _count s then _count s else count in
  if cnt =? 0 then Some NaN
  else
    sum ← getAverageLast_loop s (Z.to_nat cnt) (_index s) 0;
    Some (Val (sum ÷ cnt)).

(** ** RunningAverage::getMinInBufferLast, getMaxInBufferLast

    The local [float _min] ([_max]) only ever holds a slot, which a [float]
    represents exactly; the result goes back through the [uint16_t] of the
    header.  The two reads of [_array[idx]] in one iteration are one [load]. *)
Fixpoint getMinInBufferLast_loop (s : t) (n : nat) (idx m : Z) : option Z :=
  match n with
  | O => Some m
  | S n' =>
    x ← load (_array s) idx;
    let m' := if x <? m then x else m in
    let idx1 := if idx =? 0 then _size s else idx in
    getMinInBufferLast_loop s n' (wrap16 (idx1 - 1)) m'
  end.

Definition getMinInBufferLast (count : Z) (s : t) : option result :=
  let cnt := if count >? _count s then _count s else count in
  if cnt =? 0 then Some NaN
  else
    let idx1 := if _index s =? 0 then _size s else _index s in
    let idx := wrap16 (idx1 - 1) in
    m ← load (_array s) idx;
    r ← getMinInBufferLast_loop s (Z.to_nat cnt) idx m;
    Some (Val r).

Fixpoint getMaxInBufferLast_loop (s : t) (n : nat) (idx m : Z) : option Z :=
  match n with
  | O => Some m
  | S n' =>
    x ← load (_array s) idx;
    let m' := if x >? m then x else m in
    let idx1 := if idx =? 0 then _size s else idx in
    getMaxInBufferLast_loop s n' (wrap16 (idx1 - 1)) m'
  end.

Definition getMaxInBufferLast (count : Z) (s : t) : option result :=
  let cnt := if count >? _count s then _count s else count in
  if cnt =? 0 then Some NaN
  else
    let idx1 := if _index s =? 0 then _size s else _index s in
    let idx := wrap16 (idx1 - 1) in
    m ← load (_array s) idx;
    r ← getMaxInBufferLast_loop s (Z.to_nat cnt) idx m;
    Some (Val r).

(** ** RunningAverage::getAverageSubset

    The result is a [float] in the header too: the quotient [sum / cnt] of
    the accumulated [float sum] and the count.  The model hands back the two
    operands of that division; the sum is the exact integer, which is what
    the [float] holds while it stays below 2^24. *)
Inductive fresult : Type :=
  | FNaN
  | FQuot (sum cnt : Z).

(** [while (idx >= _partial) idx -= _partial;] with [fuel] tests left; out
    of fuel, the loop does not end. *)
Fixpoint getAverageSubset_reduce (fuel : nat) (idx partial : Z) : option Z :=
  match fuel with
  | O => None
  | S fuel' =>
    if idx >=? partial then getAverageSubset_reduce fuel' (idx - partial) partial
    else Some idx
  end.

Fixpoint getAverageSubset_loop (s : t) (n : nat) (start i sum : Z) : option Z :=
  match n with
  | O => Some sum
  | S n' =>
    let idx0 := wrap16 (_index s + start + i) in
    idx ← getAverageSubset_reduce (S (Z.to_nat idx0)) idx0 (_partial s);
    x ← load (_array s) idx;
    getAverageSubset_loop s n' start (i + 1) (sum + x)
  end.

Definition getAverageSubset (start count : Z) (s : t) : option fresult :=
  if _count s =? 0 then Some FNaN
  else
    let cnt := if _count s >? count then count else _count s in
    sum ← getAverageSubset_loop s (Z.to_nat cnt) start 0 0;
    Some (FQuot sum cnt).

(** ** The inline members of the header *)

Definition add (value : Z) (s : t) : option t := addValue value s.

Definition bufferIsFull (s : t) : bool := _count s =? _size s.

Definition getSize (s : t) : Z := _size s.

Definition getCount (s : t) : Z := _count s.

Definition getPartial (s : t) : Z := _partial s.

End RunningAverage.

Import RunningAverage.

(** ** Reachable states

    The operations that change the object, with their [uint16_t]
    arguments. *)
Inductive mutation : Type :=
  | Clear
  | AddValue (value : Z)
  | FillValue (value number : Z)
  | SetPartial (partial : Z).

Definition mutation_args_ok (m : mutation) : Prop :=
  match m with
  | Clear => True
  | AddValue v => is_u16 v
  | FillValue v n => is_u16 v /\ is_u16 n
  | SetPartial p => is_u16 p
  end.

Definition exec (m : mutation) (s : t) : option t :=
  match m with
  | Clear => clear s
  | AddValue v => addValue v s
  | FillValue v n => fillValue v n s
  | SetPartial p => setPartial p s
  end.

(** What [malloc] may hand to the constructor called with a positive
    capacity [size]: NULL, or memory whose first [size] slots, of any
    content, become the block.  What the allocation holds behind them is
    left out: no function of the class initialises or writes it. *)
Definition malloc_result (size : Z) (block : option (list Z)) : Prop :=
  match block with
  | None => True
  | Some a => Z.of_nat (length a) = size /\ Forall is_u16 a
  end.

(** The states an object goes through: built by the constructor with a
    positive capacity (what [malloc] does for 0 bytes is left to the
    implementation), then changed by the mutating operations and by
    [getAverage], which rewrites [_sum]. *)
Inductive reachable : t -> Prop :=
  | reach_new size block s :
      0 < size < 65536 ->
      malloc_result size block ->
      new size block = Some s ->
      reachable s
  | reach_exec m s s' :
      reachable s ->
      mutation_args_ok m ->
      exec m s = Some s' ->
      reachable s'
  | reach_getAverage s r s' :
      reachable s ->
      getAverage s = Some (r, s') ->
      reachable s'.

(** The block behind [_array], empty for NULL. *)
Definition slots (s : t) : list Z := default [] (_array s).

(** The object has no storage ([malloc] returned NULL): [addValue] is a
    no-op and every query reports an empty buffer. *)
Definition inert (s : t) : Prop := _array s = None.

(** The sum of a list of slots, as an integer. *)
Definition sumZ (l : list Z) : Z := foldr Z.add 0 l.

(** The slots that hold samples: the first [_count] ones. *)
Definition valid_slots (s : t) : list Z := take (Z.to_nat (_count s)) (slots s).

(** The class invariant. *)
Definition inv (s : t) : Prop :=
  is_u16 (_partial s) /\
  match _array s with
  | None =>
    _size s = 0 /\ _count s = 0 /\ _index s = 0 /\ _sum s = 0 /\
    _min s = 0 /\ _max s = 0
  | Some a =>
    Z.of_nat (length a) = _size s /\
    0 < _partial s <= _size s /\ _size s < 65536 /\
    0 <= _count s <= _partial s /\
    0 <= _index s < _partial s /\
    (_count s < _partial s -> _index s = _count s) /\
    Forall is_u16 a /\
    Forall (eq 0) (drop (Z.to_nat (_count s)) a) /\
    _sum s = wrap16 (sumZ (take (Z.to_nat (_count s)) a)) /\
    is_u16 (_min s) /\ is_u16 (_max s) /\ _min s <= _max s
  end.

(** ** Vocabulary of the statements *)

(** The block is where the object says it is. *)
Definition mem_ok (s : t) : Prop :=
  match _array s with
  | None => _size s = 0
  | Some a => Z.of_nat (length a) = _size s
  end.

(** A sequence of mutating calls, in order. *)
Fixpoint run (ms : list mutation) (s : t) : option t :=
  match ms with
  | [] => Some s
  | m :: ms' => s' ← exec m s; run ms' s'
  end.

(** Counters, sum and extremes at 0 and every slot of the block at 0. *)
Definition zeroed (s : t) : Prop :=
  _count s = 0 /\ _index s = 0 /\ _sum s = 0 /\ _min s = 0 /\ _max s = 0 /\
  Forall (eq 0) (slots s).

(** Following the spec's words, not the source: AverageLast walks backward
    from the slot before the write index and wraps at the window length
    [_partial]. *)
Fixpoint AverageLast_spec_loop (s : t) (n : nat) (idx sum : Z) : option Z :=
  match n with
  | O => Some sum
  | S n' =>
    let idx1 := if idx =? 0 then _partial s else idx in
    let idx2 := wrap16 (idx1 - 1) in
    x ← load (_array s) idx2;
    AverageLast_spec_loop s n' idx2 (sum + x)
  end.

Definition AverageLast_spec (count : Z) (s : t) : option result :=
  let cnt := Z.min count (_count s) in
  if cnt =? 0 then Some NaN
  else
    sum ← AverageLast_spec_loop s (Z.to_nat cnt) (_index s) 0;
    Some (Val (sum ÷ cnt)).

(** The samples the buffer holds, oldest first: while the buffer fills up
    they are the first [_count] slots in order; once it is full the oldest
    one is at [_index]. *)
Definition window (s : t) : list Z :=
  if _count s <? _partial s then take (Z.to_nat (_count s)) (slots s)
  else drop (Z.to_nat (_index s)) (take (Z.to_nat (_partial s)) (slots s))
       ++ take (Z.to_nat (_index s)) (slots s).

(** ** Vocabulary of the further properties *)

(** [m] is the least (the greatest) element of [l]. *)
Definition is_min (m : Z) (l : list Z) : Prop :=
  m ∈ l /\ Forall (fun x => m <= x) l.

Definition is_max (m : Z) (l : list Z) : Prop :=
  m ∈ l /\ Forall (fun x => x <= m) l.

(** The [n] most recent samples of the window, oldest first. *)
Definition recent (n : nat) (s : t) : list Z :=
  drop (length (window s) - n) (window s).

(** The slots a walk of [n] steps reads, going backward from [idx] and
    continuing from [_size] at slot 0, as the three [...Last] queries do;
    [None] when a step leaves the block. *)
Fixpoint walk_back (s : t) (n : nat) (idx : Z) : option (list Z) :=
  match n with
  | O => Some []
  | S n' =>
    let idx1 := if idx =? 0 then _size s else idx in
    let idx2 := wrap16 (idx1 - 1) in
    x ← load (_array s) idx2;
    l ← walk_back s n' idx2;
    Some (x :: l)
  end.

(** The calls that leave the window length alone: all but [setPartial]. *)
Definition keeps_window (m : mutation) : Prop :=
  match m with
  | SetPartial _ => False
  | _ => True
  end.

(** Every sample of the window lies between the observed extremes. *)
Definition window_in_range (s : t) : Prop :=
  Forall (fun x => _min s <= x <= _max s) (valid_slots s).

(** ** Sample objects

    A capacity of 2: freshly constructed; after one sample 7; after one
    sample 65535; after the samples 7, 14, 9. *)
Definition sample_fresh : t := mk 2 0 0 2 0 (Some [0; 0]) 0 0.

Definition sample_one : t := mk 2 1 1 2 7 (Some [7; 0]) 7 7.

Definition sample_max : t := mk 2 1 1 2 65535 (Some [65535; 0]) 65535 65535.

Definition sample_full : t := mk 2 2 1 2 23 (Some [9; 14]) 7 14.

(** More sample objects: one whose allocation failed (capacity 3 asked
    for); capacity 5 with a window of 2 after the samples 10, 20; capacity 4
    after the samples 5, 3, 9. *)
Definition sample_inert : t := mk 0 0 0 3 0 None 0 0.

Definition sample_partial : t := mk 5 2 0 2 30 (Some [10; 20; 0; 0; 0]) 10 20.

Definition sample_three : t := mk 4 3 3 4 17 (Some [5; 3; 9; 0]) 3 9.

Ltac u16 := unfold is_u16; lia.

(** ** Sums of slots *)

Lemma sumZ_app l1 l2 : sumZ (l1 ++ l2) = sumZ l1 + sumZ l2.
Proof. induction l1 as [|x l1 IH]; simpl; lia. Qed.

Lemma sumZ_replicate n v : sumZ (replicate n v) = Z.of_nat n * v.
Proof.
  induction n as [|n IH]; [reflexivity|].
  change (sumZ (replicate (S n) v)) with (v + sumZ (replicate n v)).
  rewrite IH. lia.
Qed.

Lemma sumZ_insert l i x v :
  l !! i = Some x -> sumZ (<[i:=v]> l) = sumZ l - x + v.
Proof.
  revert i. induction l as [|y l IH]; intros [|i] H; simpl in *; try discriminate.
  - injection H as ->. lia.
  - rewrite (IH i H). lia.
Qed.

Lemma sumZ_nonneg l : Forall is_u16 l -> 0 <= sumZ l.
Proof. induction 1 as [|x l [H _] _ IH]; simpl; lia. Qed.

(** ** Arithmetic modulo 65536 *)

Lemma wrap16_u16 z : is_u16 (wrap16 z).
Proof. unfold is_u16, wrap16. apply Z.mod_pos_bound. lia. Qed.

Lemma wrap16_small z : is_u16 z -> wrap16 z = z.
Proof. unfold is_u16, wrap16. intros H. apply Z.mod_small. lia. Qed.

Lemma wrap16_replace S x v :
  wrap16 (wrap16 (wrap16 S - x) + v) = wrap16 (S - x + v).
Proof.
  unfold wrap16.
  rewrite Zplus_mod_idemp_l.
  replace (S mod 65536 - x + v) with (S mod 65536 + (v - x)) by lia.
  rewrite Zplus_mod_idemp_l. f_equal. lia.
Qed.

Lemma wrap16_add S x : wrap16 (wrap16 S + x) = wrap16 (S + x).
Proof. unfold wrap16. apply Zplus_mod_idemp_l. Qed.

(** ** clear *)

Lemma clear_loop_block n (a : list Z) :
  (n <= length a)%nat ->
  clear_loop n (Some a) = Some (Some (replicate n 0 ++ drop n a)).
Proof.
  revert a. induction n as [|n IH]; intros a Hn.
  - simpl. rewrite drop_0. reflexivity.
  - destruct (lookup_lt_is_Some_2 a n) as [x Hx]; [lia|].
    cbn [clear_loop]. unfold store. cbn [mbind option_bind].
    rewrite Nat2Z.id.
    destruct (decide (n < length a)%nat) as [_|]; [|lia].
    cbn [mbind option_bind].
    rewrite IH by (rewrite length_insert; lia).
    rewrite drop_insert_ge by lia.
    rewrite Nat.sub_diag, (drop_S _ _ _ Hx). cbn [insert list_insert].
    rewrite replicate_S_end, <- app_assoc. reflexivity.
Qed.

Lemma clear_spec s :
  mem_ok s ->
  clear s =
  Some (mk (_size s) 0 0 (_partial s) 0
           ((fun a => replicate (length a) 0) <$> _array s) 0 0).
Proof.
  unfold mem_ok, clear. destruct (_array s) as [a|]; intros H.
  - rewrite clear_loop_block by lia.
    replace (Z.to_nat (_size s)) with (length a) by lia.
    rewrite drop_all, app_nil_r. reflexivity.
  - rewrite H. reflexivity.
Qed.

Lemma inv_mem_ok s : inv s -> mem_ok s.
Proof.
  unfold inv, mem_ok. intros [_ H]. destruct (_array s); tauto.
Qed.

Lemma inv_cleared size partial (p : option (list Z)) :
  is_u16 partial ->
  match p with
  | None => size = 0
  | Some a => Z.of_nat (length a) = size /\ 0 < partial <= size /\ size < 65536
  end ->
  inv (mk size 0 0 partial 0 ((fun a => replicate (length a) 0) <$> p) 0 0).
Proof.
  intros Hp H. split; [exact Hp|]. destruct p as [a|]; simpl.
  - destruct H as (Hl & Hpart & Hs). rewrite length_replicate.
    repeat split; try lia.
    + apply Forall_replicate. unfold is_u16. lia.
    + apply Forall_drop, Forall_replicate_eq.
  - repeat split; lia.
Qed.

(** ** addValue *)

Lemma addValue_spec s a v old :
  _array s = Some a ->
  a !! Z.to_nat (_index s) = Some old ->
  addValue v s =
  Some (mk (_size s)
           (if _count s <? _partial s then wrap16 (_count s + 1) else _count s)
           (if wrap16 (_index s + 1) =? _partial s then 0
            else wrap16 (_index s + 1))
           (_partial s)
           (wrap16 (wrap16 (_sum s - old) + v))
           (Some (<[Z.to_nat (_index s) := v]> a))
           (if _count s =? 0 then v
            else if v <? _min s then v else _min s)
           (if _count s =? 0 then v
            else if v <? _min s then _max s
            else if v >? _max s then v else _max s)).
Proof.
  intros Ha Hold. unfold addValue. rewrite Ha. unfold load, store.
  cbn [mbind option_bind]. rewrite Hold. cbn [mbind option_bind].
  pose proof (lookup_lt_Some _ _ _ Hold) as Hlt.
  destruct (decide (Z.to_nat (_index s) < length a)%nat) as [_|]; [|lia].
  cbn [mbind option_bind].
  rewrite list_lookup_insert_eq by exact Hlt. reflexivity.
Qed.

Lemma addValue_inert s v : inert s -> addValue v s = Some s.
Proof. unfold inert, addValue. intros ->. reflexivity. Qed.
Lemma addValue_minmax c v mn mx :
  is_u16 v -> is_u16 mn -> is_u16 mx -> mn <= mx ->
  is_u16 (if c =? 0 then v else if v <? mn then v else mn) /\
  is_u16 (if c =? 0 then v
          else if v <? mn then mx else if v >? mx then v else mx) /\
  (if c =? 0 then v else if v <? mn then v else mn)
  <= (if c =? 0 then v
      else if v <? mn then mx else if v >? mx then v else mx).
Proof.
  unfold is_u16. intros Hv Hmn Hmx Hle.
  destruct (c =? 0); [lia|].
  destruct (Z.ltb_spec v mn); [lia|].
  destruct (Z.gtb_spec v mx); lia.
Qed.

Lemma addValue_inv s v :
  inv s -> is_u16 v -> exists s', addValue v s = Some s' /\ inv s'.
Proof.
  intros [Hp H] Hv. destruct (_array s) as [a|] eqn:Ha.
  2:{ exists s. split; [apply addValue_inert; exact Ha|].
      split; [exact Hp|]. rewrite Ha. exact H. }
  destruct H as (Hlen & Hpart & Hsz & Hc & Hi & Hci & Hu & Hz & Hsum & Hmin & Hmax & Hmm).
  destruct (lookup_lt_is_Some_2 a (Z.to_nat (_index s))) as [old Hold]; [lia|].
  eexists; split; [apply (addValue_spec _ _ _ _ Ha Hold)|].
  assert (wrap16 (_index s + 1) = _index s + 1) as ->
    by (apply wrap16_small; unfold is_u16; lia).
  unfold inv; cbn [_size _count _index _partial _sum _array _min _max].
  split; [exact Hp|].
  rewrite length_insert.
  pose proof (addValue_minmax (_count s) v _ _ Hv Hmin Hmax Hmm) as (M1 & M2 & M3).
  pose proof (Forall_insert _ _ (Z.to_nat (_index s)) _ Hu Hv) as Hu'.
  destruct (Z.ltb_spec (_count s) (_partial s)) as [Hlt|Hge].
  - assert (_index s = _count s) as Hic by auto.
    assert (wrap16 (_count s + 1) = _count s + 1) as ->
      by (apply wrap16_small; unfold is_u16; lia).
    assert (old = 0) as ->.
    { symmetry. apply (Forall_lookup_1 _ _ 0%nat _ Hz).
      rewrite lookup_drop, Nat.add_0_r, <- Hic. exact Hold. }
    replace (Z.to_nat (_count s + 1)) with (S (Z.to_nat (_count s))) by lia.
    rewrite Hic in *.
    split_and!; try lia; try assumption.
    all: try (destruct (Z.eqb_spec (_count s + 1) (_partial s)); lia).
    + rewrite drop_insert_lt by lia.
      replace (S (Z.to_nat (_count s))) with (Z.to_nat (_count s) + 1)%nat by lia.
      rewrite <- drop_drop. apply Forall_drop, Hz.
    + rewrite (take_S_r _ _ v) by (apply list_lookup_insert_eq; lia).
      rewrite take_insert_ge by lia. rewrite sumZ_app. simpl sumZ.
      rewrite Hsum, wrap16_replace. f_equal. lia.
  - assert (_count s = _partial s) as Hfull by lia.
    split_and!; try lia; try assumption.
    all: try (destruct (Z.eqb_spec (_index s + 1) (_partial s)); lia).
    + rewrite drop_insert_lt by lia. exact Hz.
    + rewrite take_insert_lt by lia.
      rewrite (sumZ_insert _ _ old) by (rewrite lookup_take_lt by lia; exact Hold).
      rewrite Hsum, wrap16_replace. reflexivity.
Qed.

(** ** clear, setPartial, fillValue, getAverage keep the invariant *)

Lemma clear_inv s :
  inv s ->
  clear s =
  Some (mk (_size s) 0 0 (_partial s) 0
           ((fun a => replicate (length a) 0) <$> _array s) 0 0) /\
  inv (mk (_size s) 0 0 (_partial s) 0
          ((fun a => replicate (length a) 0) <$> _array s) 0 0).
Proof.
  intros Hinv. split; [apply clear_spec, inv_mem_ok, Hinv|].
  destruct Hinv as [Hp H]. apply inv_cleared; [exact Hp|].
  destruct (_array s); [|tauto]. repeat split; lia.
Qed.

Lemma setPartial_inv s p :
  inv s -> is_u16 p ->
  let p' := if (p =? 0) || (p >? _size s) then _size s else p in
  setPartial p s =
  Some (mk (_size s) 0 0 p' 0
           ((fun a => replicate (length a) 0) <$> _array s) 0 0) /\
  inv (mk (_size s) 0 0 p' 0
          ((fun a => replicate (length a) 0) <$> _array s) 0 0).
Proof.
  intros Hinv Hp p'. split.
  - unfold setPartial. rewrite clear_spec; [reflexivity|].
    apply inv_mem_ok in Hinv. exact Hinv.
  - destruct Hinv as [_ H]. unfold is_u16 in *.
    assert (p' = _size s \/ (p' = p /\ 0 < p <= _size s)) as Hp'.
    { unfold p'. destruct (Z.eqb_spec p 0); [left; reflexivity|].
      destruct (Z.gtb_spec p (_size s)); cbn [orb]; [left; reflexivity|].
      right. lia. }
    destruct (_array s) as [a|].
    + apply inv_cleared; unfold is_u16; lia.
    + apply inv_cleared; unfold is_u16; lia.
Qed.

Lemma fillValue_loop_inv n v s :
  inv s -> is_u16 v -> exists s', fillValue_loop n v s = Some s' /\ inv s'.
Proof.
  revert s. induction n as [|n IH]; intros s Hinv Hv.
  - exists s. split; [reflexivity|exact Hinv].
  - destruct (addValue_inv s v Hinv Hv) as (s1 & Hs1 & Hinv1).
    destruct (IH s1 Hinv1 Hv) as (s2 & Hs2 & Hinv2).
    exists s2. split; [|exact Hinv2].
    cbn [fillValue_loop]. rewrite Hs1. exact Hs2.
Qed.

Lemma fillValue_inv s v n :
  inv s -> is_u16 v -> exists s', fillValue v n s = Some s' /\ inv s'.
Proof.
  intros Hinv Hv. destruct (clear_inv s Hinv) as [Hc Hinv0].
  unfold fillValue. rewrite Hc. cbn [mbind option_bind].
  apply fillValue_loop_inv; assumption.
Qed.

Lemma getAverage_loop_spec (a : list Z) n i acc :
  (i + n <= length a)%nat ->
  is_u16 acc ->
  getAverage_loop (Some a) n (Z.of_nat i) acc =
  Some (wrap16 (acc + sumZ (take n (drop i a)))).
Proof.
  revert i acc. induction n as [|n IH]; intros i acc Hn Hacc.
  - simpl. rewrite Z.add_0_r, wrap16_small by exact Hacc. reflexivity.
  - destruct (lookup_lt_is_Some_2 a i) as [x Hx]; [lia|].
    cbn [getAverage_loop]. unfold load. cbn [mbind option_bind].
    rewrite Nat2Z.id, Hx. cbn [mbind option_bind].
    replace (Z.of_nat i + 1) with (Z.of_nat (S i)) by lia.
    rewrite IH by (try apply wrap16_u16; lia).
    rewrite (drop_S _ _ _ Hx). cbn [take sumZ foldr].
    fold (sumZ (take n (drop (S i) a))).
    rewrite wrap16_add. f_equal. f_equal. lia.
Qed.

Lemma getAverage_inv s :
  inv s -> _count s <> 0 ->
  getAverage s = Some (Val (_sum s ÷ _count s), s).
Proof.
  intros [Hp H] Hc. unfold getAverage.
  destruct (Z.eqb_spec (_count s) 0) as [|_]; [contradiction|].
  destruct (_array s) as [a|] eqn:Ha; [|lia].
  destruct H as (Hlen & Hpart & Hsz & Hcnt & Hi & Hci & Hu & Hz & Hsum & _).
  change 0 with (Z.of_nat 0) at 1.
  rewrite getAverage_loop_spec by (unfold is_u16; lia).
  cbn [mbind option_bind]. rewrite drop_0, Z.add_0_l, <- Hsum.
  rewrite <- Ha. destruct s; reflexivity.
Qed.

Lemma getAverage_state s r s' :
  inv s -> getAverage s = Some (r, s') -> s' = s.
Proof.
  intros Hinv. destruct (Z.eq_dec (_count s) 0) as [H0|H0].
  - unfold getAverage. rewrite H0. cbn. congruence.
  - rewrite (getAverage_inv s Hinv H0). congruence.
Qed.

Lemma new_inv size block s :
  0 < size < 65536 -> malloc_result size block -> new size block = Some s ->
  inv s.
Proof.
  intros Hs Hb. unfold new. rewrite clear_spec.
  - intros [= <-]. cbn [_size _partial _array].
    apply inv_cleared; [unfold is_u16; lia|].
    destruct block as [a|]; [|reflexivity]. destruct Hb as [Hl _]. lia.
  - unfold mem_ok. cbn [_array _size]. destruct block as [a|]; [|reflexivity].
    destruct Hb as [Hl _]. exact Hl.
Qed.

Lemma exec_inv m s :
  inv s -> mutation_args_ok m -> exists s', exec m s = Some s' /\ inv s'.
Proof.
  intros Hinv Hm. destruct m as [|v|v n|p]; cbn [exec mutation_args_ok] in *.
  - destruct (clear_inv s Hinv) as [-> H]. eauto.
  - apply addValue_inv; assumption.
  - apply fillValue_inv; tauto.
  - destruct (setPartial_inv s p Hinv Hm) as [-> H]. eauto.
Qed.

Lemma reachable_inv s : reachable s -> inv s.
Proof.
  induction 1 as [size block s Hs Hb Hnew|m s s' _ IH Hm Hex|s r s' _ IH Hg].
  - eapply new_inv; eassumption.
  - destruct (exec_inv m s IH Hm) as (s1 & Hs1 & Hinv1). congruence.
  - rewrite (getAverage_state _ _ _ IH Hg). exact IH.
Qed.

Lemma reachable_run ms s s' :
  reachable s -> Forall mutation_args_ok ms -> run ms s = Some s' ->
  reachable s'.
Proof.
  revert s. induction ms as [|m ms IH]; intros s Hr Hms Hrun.
  - injection Hrun as <-. exact Hr.
  - apply Forall_cons_1 in Hms as [Hm Hms]. cbn [run] in Hrun.
    destruct (exec m s) as [s1|] eqn:E; [|discriminate].
    apply (IH s1); [|exact Hms|exact Hrun].
    eapply reach_exec; eassumption.
Qed.

(** ** fillValue *)

Lemma fillValue_loop_shape n v s a :
  inv s -> is_u16 v -> _array s = Some a ->
  _count s + Z.of_nat n <= _partial s ->
  take (Z.to_nat (_count s)) a = replicate (Z.to_nat (_count s)) v ->
  exists s' a',
    fillValue_loop n v s = Some s' /\ inv s' /\ _array s' = Some a' /\
    _count s' = _count s + Z.of_nat n /\ _partial s' = _partial s /\
    take (Z.to_nat (_count s')) a' = replicate (Z.to_nat (_count s')) v.
Proof.
  revert s a. induction n as [|n IH]; intros s a Hinv Hv Ha Hn Htake.
  - exists s, a. cbn [fillValue_loop]. rewrite Z.add_0_r. tauto.
  - destruct (addValue_inv s v Hinv Hv) as (s1 & Hs1 & Hinv1).
    pose proof Hinv as [_ H]. rewrite Ha in H.
    destruct H as (Hlen & Hpart & Hsz & Hc & Hi & Hci & _).
    assert (_index s = _count s) as Hic by (apply Hci; lia).
    destruct (lookup_lt_is_Some_2 a (Z.to_nat (_index s))) as [old Hold];
      [lia|].
    pose proof Hs1 as Hs1'. rewrite (addValue_spec _ _ _ _ Ha Hold) in Hs1'.
    injection Hs1' as Hs1'.
    destruct (Z.ltb_spec (_count s) (_partial s)) as [_|]; [|lia].
    rewrite (wrap16_small (_count s + 1)) in Hs1' by (unfold is_u16; lia).
    destruct (IH s1 (<[Z.to_nat (_index s) := v]> a)) as
        (s2 & a2 & Hs2 & Hinv2 & Ha2 & Hc2 & Hp2 & Ht2); try assumption.
    + rewrite <- Hs1'. reflexivity.
    + rewrite <- Hs1'. cbn [_count _partial]. lia.
    + rewrite <- Hs1'. cbn [_count]. rewrite Hic.
      replace (Z.to_nat (_count s + 1)) with (S (Z.to_nat (_count s))) by lia.
      rewrite (take_S_r _ _ v) by (apply list_lookup_insert_eq; lia).
      rewrite take_insert_ge by lia. rewrite Htake, <- replicate_S_end.
      reflexivity.
    + exists s2, a2. cbn [fillValue_loop]. rewrite Hs1. cbn [mbind option_bind].
      rewrite <- Hs1' in Hc2, Hp2. cbn [_count _partial] in Hc2, Hp2.
      split_and!; try assumption. lia.
Qed.

(** ** getAverageLast *)

Section getAverageLast_walk.

Variable s : t.
Variable a : list Z.
Hypothesis Ha : _array s = Some a.
Hypothesis Hlen : Z.of_nat (length a) = _size s.
Hypothesis Hsz : _size s < 65536.

(** [n] steps down from [idx] without reaching slot 0 early. *)
Lemma getAverageLast_loop_down n m idx acc :
  (n <= idx <= length a)%nat ->
  getAverageLast_loop s (n + m) (Z.of_nat idx) acc =
  getAverageLast_loop s m (Z.of_nat (idx - n))
    (acc + sumZ (take n (drop (idx - n) a))).
Proof.
  revert idx acc.
  induction n as [|n IH]; intros idx acc Hn.
  - cbn [Nat.add take sumZ foldr]. rewrite Nat.sub_0_r, Z.add_0_r. reflexivity.
  - destruct (lookup_lt_is_Some_2 a (idx - 1)) as [x Hx]; [lia|].
    cbn [Nat.add getAverageLast_loop].
    destruct (Z.eqb_spec (Z.of_nat idx) 0) as [|_]; [lia|].
    rewrite wrap16_small by (unfold is_u16; lia).
    replace (Z.of_nat idx - 1) with (Z.of_nat (idx - 1)) by lia.
    unfold load. rewrite Ha. cbn [mbind option_bind].
    rewrite Nat2Z.id, Hx. cbn [mbind option_bind].
    rewrite IH by lia.
    replace (idx - 1 - n)%nat with (idx - S n)%nat by lia.
    rewrite (take_S_r _ n x).
    2:{ rewrite lookup_drop. replace (idx - S n + n)%nat with (idx - 1)%nat by lia.
        exact Hx. }
    rewrite sumZ_app. cbn [sumZ foldr]. f_equal. lia.
Qed.

(** At slot 0 the walk goes on from [_size]. *)
Lemma getAverageLast_loop_wrap n acc :
  getAverageLast_loop s (S n) 0 acc = getAverageLast_loop s (S n) (_size s) acc.
Proof.
  cbn [getAverageLast_loop]. cbn [Z.eqb].
  destruct (Z.eqb_spec (_size s) 0); reflexivity.
Qed.

(** A walk of [_size] steps from any slot visits every slot once. *)
Lemma getAverageLast_loop_all idx :
  (idx < length a)%nat ->
  getAverageLast_loop s (length a) (Z.of_nat idx) 0 = Some (sumZ a).
Proof.
  intros Hidx.
  replace (length a) with (idx + S (length a - S idx))%nat at 1 by lia.
  rewrite getAverageLast_loop_down by lia.
  rewrite Nat.sub_diag, drop_0. change (Z.of_nat 0) with 0.
  rewrite getAverageLast_loop_wrap, <- Hlen.
  replace (S (length a - S idx)) with (length a - idx + 0)%nat by lia.
  rewrite getAverageLast_loop_down by lia.
  cbn [getAverageLast_loop].
  replace (length a - (length a - idx))%nat with idx by lia.
  rewrite (take_ge (drop idx a)) by (rewrite length_drop; lia).
  rewrite <- (take_drop idx a) at 3. rewrite sumZ_app. reflexivity.
Qed.

End getAverageLast_walk.

(** Where the window is the whole block, the walk of the source is the walk
    the spec describes. *)
Lemma getAverageLast_spec_whole count s :
  _partial s = _size s ->
  getAverageLast count s = AverageLast_spec count s.
Proof.
  intros Hw. unfold getAverageLast, AverageLast_spec.
  assert ((if count >? _count s then _count s else count)
          = Z.min count (_count s)) as ->
    by (destruct (Z.gtb_spec count (_count s)); lia).
  destruct (Z.min count (_count s) =? 0); [reflexivity|].
  assert (forall n idx acc,
    getAverageLast_loop s n idx acc = AverageLast_spec_loop s n idx acc) as ->;
    [|reflexivity].
  induction n as [|n IH]; intros idx acc; [reflexivity|].
  cbn [getAverageLast_loop AverageLast_spec_loop]. rewrite Hw.
  destruct (load _ _); [|reflexivity]. cbn [mbind option_bind]. apply IH.
Qed.

(** ** The window, oldest sample first *)

Lemma window_length s : inv s -> Z.of_nat (length (window s)) = _count s.
Proof.
  intros [_ H]. unfold window, slots.
  destruct (_array s) as [a|]; cbn [default from_option id].
  - destruct H as (Hlen & Hpart & Hsz & Hc & Hi & _).
    destruct (Z.ltb_spec (_count s) (_partial s)).
    + rewrite length_take. lia.
    + rewrite length_app, length_drop, !length_take. lia.
  - destruct H as (_ & -> & -> & _).
    destruct (0 <? _partial s); rewrite ?take_nil, ?drop_nil; reflexivity.
Qed.

(** [addValue] appends the sample to the window and, once the buffer is
    full, drops the oldest one. *)
Lemma window_addValue s v :
  inv s -> ~ inert s -> is_u16 v ->
  exists s', addValue v s = Some s' /\
    inv s' /\ ~ inert s' /\ _partial s' = _partial s /\
    window s' =
    (if _count s <? _partial s then window s else drop 1 (window s)) ++ [v].
Proof.
  intros Hinv Hn Hv. destruct (addValue_inv s v Hinv Hv) as (s1 & Hs1 & Hinv1).
  destruct Hinv as [_ H]. unfold inert in Hn.
  destruct (_array s) as [a|] eqn:Ha; [|congruence].
  destruct H as (Hlen & Hpart & Hsz & Hc & Hi & Hci & _).
  destruct (lookup_lt_is_Some_2 a (Z.to_nat (_index s))) as [old Hold]; [lia|].
  exists s1. split; [exact Hs1|]. split; [exact Hinv1|].
  rewrite (addValue_spec _ _ _ _ Ha Hold) in Hs1. injection Hs1 as <-.
  split; [unfold inert; cbn [_array]; discriminate|].
  split; [reflexivity|].
  unfold window, slots. rewrite Ha.
  cbn [_size _count _index _partial _sum _array _min _max default from_option id].
  rewrite (wrap16_small (_index s + 1)) by (unfold is_u16; lia).
  destruct (Z.ltb_spec (_count s) (_partial s)) as [Hlt|Hge].
  - assert (_index s = _count s) as Hic by auto. rewrite Hic in *.
    rewrite (wrap16_small (_count s + 1)) by (unfold is_u16; lia).
    assert (take (Z.to_nat (_count s + 1)) (<[Z.to_nat (_count s):=v]> a)
            = take (Z.to_nat (_count s)) a ++ [v]) as Htake.
    { replace (Z.to_nat (_count s + 1)) with (S (Z.to_nat (_count s))) by lia.
      rewrite (take_S_r _ _ v) by (apply list_lookup_insert_eq; lia).
      rewrite take_insert_ge by lia. reflexivity. }
    destruct (Z.ltb_spec (_count s + 1) (_partial s)) as [Hlt'|Hge'].
    + exact Htake.
    + destruct (Z.eqb_spec (_count s + 1) (_partial s)) as [He|]; [|lia].
      rewrite <- He. cbn [Z.to_nat take]. rewrite drop_0, app_nil_r.
      exact Htake.
  - assert (_count s = _partial s) as Hfull by lia.
    destruct (Z.ltb_spec (_count s) (_partial s)) as [|_]; [lia|].
    rewrite (drop_S (take (Z.to_nat (_partial s)) a) old (Z.to_nat (_index s)))
      by (rewrite lookup_take_lt by lia; exact Hold).
    cbn [drop app]. rewrite drop_0.
    rewrite take_insert_lt by lia.
    destruct (Z.eqb_spec (_index s + 1) (_partial s)) as [He|Hne].
    + cbn [Z.to_nat take]. rewrite drop_0, app_nil_r.
      rewrite (drop_ge _ (S (Z.to_nat (_index s))))
        by (rewrite length_take; lia).
      cbn [app]. rewrite <- He.
      replace (Z.to_nat (_index s + 1)) with (S (Z.to_nat (_index s))) by lia.
      rewrite <- take_insert_lt by lia.
      rewrite (take_S_r _ _ v) by (apply list_lookup_insert_eq; lia).
      rewrite take_insert_ge by lia. reflexivity.
    + replace (Z.to_nat (_index s + 1)) with (S (Z.to_nat (_index s))) by lia.
      rewrite drop_insert_lt by lia.
      rewrite (take_S_r _ _ v) by (apply list_lookup_insert_eq; lia).
      rewrite take_insert_ge by lia. rewrite app_assoc. reflexivity.
Qed.

(** As long as [position + _index] fits in 16 bits, [getValue] returns the
    sample at [position] in the window, and 0 when there is none. *)
Lemma getValue_window s p :
  inv s -> 0 <= p -> p + _index s < 65536 ->
  getValue p s = Some (default 0 (window s !! Z.to_nat p)).
Proof.
  intros Hinv Hp Hfit. pose proof (window_length s Hinv) as Hwl.
  pose proof Hinv as [_ H]. unfold getValue.
  destruct (Z.eqb_spec (_count s) 0) as [H0|H0].
  { rewrite lookup_ge_None_2 by lia. reflexivity. }
  destruct (_array s) as [a|] eqn:Ha; [|lia].
  destruct H as (Hlen & Hpart & Hsz & Hc & Hi & Hci & _).
  destruct (Z.geb_spec p (_count s)) as [Hge|Hlt].
  { rewrite lookup_ge_None_2 by lia. reflexivity. }
  rewrite (wrap16_small (p + _index s)) by (unfold is_u16; lia).
  unfold window, slots, load. rewrite Ha. cbn [default from_option id mbind option_bind].
  destruct (Z.ltb_spec (_count s) (_partial s)) as [Hnf|Hf].
  - rewrite (Hci Hnf).
    destruct (Z.geb_spec (p + _count s) (_count s)) as [_|]; [|lia].
    rewrite wrap16_small by (unfold is_u16; lia).
    replace (p + _count s - _count s) with p by lia.
    rewrite lookup_take_lt by lia.
    destruct (lookup_lt_is_Some_2 a (Z.to_nat p)) as [x ->]; [lia|].
    reflexivity.
  - assert (_count s = _partial s) as Hfull by lia. rewrite Hfull.
    destruct (Z.geb_spec (p + _index s) (_partial s)) as [Hw|Hnw].
    + rewrite wrap16_small by (unfold is_u16; lia).
      rewrite lookup_app_r by (rewrite length_drop, length_take; lia).
      rewrite length_drop, length_take, lookup_take_lt by lia.
      replace (Z.to_nat p - (Z.to_nat (_partial s) `min` length a
                             - Z.to_nat (_index s)))%nat
        with (Z.to_nat (p + _index s - _partial s)) by lia.
      destruct (lookup_lt_is_Some_2 a (Z.to_nat (p + _index s - _partial s)))
        as [x ->]; [lia|].
      reflexivity.
    + rewrite lookup_app_l by (rewrite length_drop, length_take; lia).
      rewrite lookup_drop, lookup_take_lt by lia.
      replace (Z.to_nat (_index s) + Z.to_nat p)%nat
        with (Z.to_nat (p + _index s)) by lia.
      destruct (lookup_lt_is_Some_2 a (Z.to_nat (p + _index s)))
        as [x ->]; [lia|].
      reflexivity.
Qed.

(** A stream of samples added one by one: the window is the tail of what it
    held followed by the stream, cut to the last [_partial] samples. *)
Lemma window_run_adds vs s :
  inv s -> ~ inert s -> Forall is_u16 vs ->
  exists s', run (AddValue <$> vs) s = Some s' /\
    inv s' /\ ~ inert s' /\ _partial s' = _partial s /\
    window s' =
    drop (length (window s ++ vs) - Z.to_nat (_partial s)) (window s ++ vs).
Proof.
  revert s. induction vs as [|v vs IH]; intros s Hinv Hn Hvs.
  - exists s. pose proof (window_length s Hinv) as Hl.
    assert (_count s <= _partial s) as Hc.
    { destruct Hinv as [_ H]. unfold inert in Hn.
      destruct (_array s); [lia|congruence]. }
    rewrite app_nil_r.
    replace (length (window s) - Z.to_nat (_partial s))%nat with 0%nat by lia.
    rewrite drop_0. cbn [fmap list_fmap run]. tauto.
  - apply Forall_cons_1 in Hvs as [Hv Hvs].
    destruct (window_addValue s v Hinv Hn Hv)
      as (s1 & Hs1 & Hinv1 & Hn1 & Hp1 & Hw1).
    destruct (IH s1 Hinv1 Hn1 Hvs) as (s2 & Hs2 & Hinv2 & Hn2 & Hp2 & Hw2).
    exists s2. cbn [fmap list_fmap run exec]. rewrite Hs1.
    cbn [mbind option_bind].
    split; [exact Hs2|]. split; [exact Hinv2|]. split; [exact Hn2|].
    split; [congruence|]. rewrite Hw2, Hp1, Hw1.
    pose proof (window_length s Hinv) as Hl.
    assert (0 < _partial s /\ 0 <= _count s <= _partial s) as [Hpos Hc].
    { destruct Hinv as [_ H]. unfold inert in Hn.
      destruct (_array s); [lia|congruence]. }
    destruct (Z.ltb_spec (_count s) (_partial s)) as [Hlt|Hge].
    + rewrite <- app_assoc. reflexivity.
    + destruct (window s) as [|w ws] eqn:Hw; [cbn [length] in Hl; lia|].
      cbn [drop app]. rewrite drop_0. cbn [length] in *.
      rewrite <- app_assoc. cbn [app].
      replace (S (length (ws ++ v :: vs)) - Z.to_nat (_partial s))%nat
        with (S (length (ws ++ v :: vs) - Z.to_nat (_partial s)))%nat.
      * reflexivity.
      * rewrite length_app. cbn [length]. lia.
Qed.

(** On a freshly constructed object with storage, after any stream of
    samples the window holds the last [_partial] of them, oldest first. *)
Lemma window_fresh size (a : list Z) vs s0 :
  0 < size < 65536 -> malloc_result size (Some a) ->
  new size (Some a) = Some s0 -> Forall is_u16 vs ->
  exists s, run (AddValue <$> vs) s0 = Some s /\
    window s = drop (length vs - Z.to_nat size) vs.
Proof.
  intros Hs Hb Hnew Hvs. pose proof (new_inv _ _ _ Hs Hb Hnew) as Hinv.
  unfold new in Hnew. rewrite clear_spec in Hnew.
  2:{ unfold mem_ok. cbn [_array _size]. destruct Hb as [Hl _]. exact Hl. }
  injection Hnew as <-.
  destruct (window_run_adds vs _ Hinv) as (s & Hrun & _ & _ & _ & Hw);
    [unfold inert; cbn; discriminate|exact Hvs|].
  exists s. split; [exact Hrun|]. rewrite Hw.
  unfold window at 1 2. cbn [_count _partial].
  destruct (Z.ltb_spec 0 size) as [_|]; [|lia]. reflexivity.
Qed.

(** ** Long runs *)

Lemma run_app ms1 ms2 s :
  run (ms1 ++ ms2) s = s' ← run ms1 s; run ms2 s'.
Proof.
  revert s. induction ms1 as [|m ms1 IH]; intros s; [reflexivity|].
  cbn [app run]. destruct (exec m s) as [s1|]; [|reflexivity].
  cbn [mbind option_bind]. apply IH.
Qed.

(** Filling an empty buffer to the brim: every slot of the window holds the
    value and the write index is back at 0. *)
Lemma fillValue_loop_index n v s :
  inv s -> is_u16 v -> ~ inert s ->
  _count s + Z.of_nat n <= _partial s ->
  forall s', fillValue_loop n v s = Some s' ->
  _index s' = (if _count s + Z.of_nat n =? _partial s then
                 (if (n =? 0)%nat then _index s else 0)
               else _count s + Z.of_nat n).
Proof.
  revert s. induction n as [|n IH]; intros s Hinv Hv Hn Hle s' Hs'.
  - injection Hs' as <-. cbn [Nat.eqb]. rewrite Z.add_0_r.
    destruct (Z.eqb_spec (_count s) (_partial s)); [reflexivity|].
    destruct Hinv as [_ H]. unfold inert in Hn.
    destruct (_array s); [|congruence]. apply H. lia.
  - cbn [fillValue_loop] in Hs'.
    destruct (addValue_inv s v Hinv Hv) as (s1 & Hs1 & Hinv1).
    rewrite Hs1 in Hs'. cbn [mbind option_bind] in Hs'.
    pose proof Hinv as [_ H]. unfold inert in Hn.
    destruct (_array s) as [a|] eqn:Ha; [|congruence].
    destruct H as (Hlen & Hpart & Hsz & Hc & Hi & Hci & _).
    assert (_index s = _count s) as Hic by (apply Hci; lia).
    destruct (lookup_lt_is_Some_2 a (Z.to_nat (_index s))) as [old Hold];
      [lia|].
    pose proof Hs1 as Hs1'. rewrite (addValue_spec _ _ _ _ Ha Hold) in Hs1'.
    injection Hs1' as Hs1'.
    destruct (Z.ltb_spec (_count s) (_partial s)) as [_|]; [|lia].
    rewrite (wrap16_small (_count s + 1)) in Hs1' by (unfold is_u16; lia).
    rewrite (wrap16_small (_index s + 1)) in Hs1' by (unfold is_u16; lia).
    assert (_count s1 = _count s + 1) as Hc1 by (rewrite <- Hs1'; reflexivity).
    assert (_partial s1 = _partial s) as Hp1 by (rewrite <- Hs1'; reflexivity).
    assert (_index s1 = if _index s + 1 =? _partial s then 0 else _index s + 1)
      as Hi1 by (rewrite <- Hs1'; reflexivity).
    assert (~ inert s1) as Hn1
      by (unfold inert; rewrite <- Hs1'; cbn [_array]; discriminate).
    rewrite (IH s1 Hinv1 Hv Hn1 ltac:(lia) s' Hs'), Hc1, Hp1, Hi1.
    cbn [Nat.eqb].
    replace (_count s + 1 + Z.of_nat n) with (_count s + Z.of_nat (S n)) by lia.
    destruct (Z.eqb_spec (_count s + Z.of_nat (S n)) (_partial s)) as [He|];
      [|reflexivity].
    destruct n as [|n]; cbn [Nat.eqb]; [|reflexivity].
    destruct (Z.eqb_spec (_index s + 1) (_partial s)); [reflexivity|lia].
Qed.

(** On a full buffer, [n] samples [v] written from the write index on. *)
Lemma addValue_many_full n v s a :
  inv s -> is_u16 v -> _array s = Some a ->
  _count s = _partial s ->
  _index s + Z.of_nat n < _partial s ->
  exists s',
    run (replicate n (AddValue v)) s = Some s' /\ inv s' /\
    _array s' =
      Some (take (Z.to_nat (_index s)) a ++ replicate n v
            ++ drop (Z.to_nat (_index s) + n) a) /\
    _index s' = _index s + Z.of_nat n /\
    _count s' = _count s /\ _partial s' = _partial s.
Proof.
  revert s a. induction n as [|n IH]; intros s a Hinv Hv Ha Hfull Hn.
  - exists s. cbn [replicate run app]. rewrite Nat.add_0_r, take_drop.
    split_and!; try tauto; try lia.
  - destruct (addValue_inv s v Hinv Hv) as (s1 & Hs1 & Hinv1).
    pose proof Hinv as [_ H]. rewrite Ha in H.
    destruct H as (Hlen & Hpart & Hsz & Hc & Hi & Hci & _).
    destruct (lookup_lt_is_Some_2 a (Z.to_nat (_index s))) as [old Hold];
      [lia|].
    pose proof Hs1 as Hs1'. rewrite (addValue_spec _ _ _ _ Ha Hold) in Hs1'.
    injection Hs1' as Hs1'.
    destruct (Z.ltb_spec (_count s) (_partial s)) as [|_]; [lia|].
    rewrite (wrap16_small (_index s + 1)) in Hs1' by (unfold is_u16; lia).
    destruct (Z.eqb_spec (_index s + 1) (_partial s)) as [|_]; [lia|].
    assert (_count s1 = _count s) as Hc1 by (rewrite <- Hs1'; reflexivity).
    assert (_partial s1 = _partial s) as Hp1 by (rewrite <- Hs1'; reflexivity).
    assert (_index s1 = _index s + 1) as Hi1 by (rewrite <- Hs1'; reflexivity).
    assert (_array s1 = Some (<[Z.to_nat (_index s) := v]> a)) as Ha1
      by (rewrite <- Hs1'; reflexivity).
    destruct (IH s1 _ Hinv1 Hv Ha1 ltac:(lia) ltac:(lia))
      as (s2 & Hs2 & Hinv2 & Ha2 & Hi2 & Hc2 & Hp2).
    exists s2. cbn [replicate run exec]. rewrite Hs1. cbn [mbind option_bind].
    split_and!; try assumption; try lia.
    rewrite Ha2, Hi1. f_equal.
    replace (Z.to_nat (_index s + 1)) with (S (Z.to_nat (_index s))) by lia.
    rewrite (take_S_r _ _ v) by (apply list_lookup_insert_eq; lia).
    rewrite take_insert_ge by lia.
    rewrite drop_insert_lt by lia.
    rewrite <- app_assoc. cbn [app].
    replace (S (Z.to_nat (_index s)) + n)%nat
      with (Z.to_nat (_index s) + S n)%nat by lia.
    reflexivity.
Qed.

(** The capacity never changes. *)
Lemma clear_size s s' : clear s = Some s' -> _size s' = _size s.
Proof.
  unfold clear. destruct (clear_loop _ _); cbn [mbind option_bind];
    [|discriminate].
  intros [= <-]. reflexivity.
Qed.

Lemma addValue_size v s s' : addValue v s = Some s' -> _size s' = _size s.
Proof.
  unfold addValue. destruct (_array s) as [a|]; [|intros [= <-]; reflexivity].
  destruct (load _ _); cbn [mbind option_bind]; [|discriminate].
  destruct (store _ _ _); cbn [mbind option_bind]; [|discriminate].
  destruct (load _ _); cbn [mbind option_bind]; [|discriminate].
  intros [= <-]. reflexivity.
Qed.

Lemma fillValue_loop_size n v s s' :
  fillValue_loop n v s = Some s' -> _size s' = _size s.
Proof.
  revert s. induction n as [|n IH]; intros s; cbn [fillValue_loop].
  - intros [= <-]. reflexivity.
  - destruct (addValue v s) as [s1|] eqn:E; cbn [mbind option_bind];
      [|discriminate].
    intros H. rewrite (IH _ H). apply (addValue_size _ _ _ E).
Qed.

Lemma exec_size m s s' : exec m s = Some s' -> _size s' = _size s.
Proof.
  destruct m as [|v|v n|p]; cbn [exec].
  - apply clear_size.
  - apply addValue_size.
  - unfold fillValue. destruct (clear s) as [s0|] eqn:E;
      cbn [mbind option_bind]; [|discriminate].
    intros H. rewrite (fillValue_loop_size _ _ _ _ H).
    apply (clear_size _ _ E).
  - unfold setPartial. intros H. apply clear_size in H. exact H.
Qed.

Lemma run_size ms s s' : run ms s = Some s' -> _size s' = _size s.
Proof.
  revert s. induction ms as [|m ms IH]; intros s; cbn [run].
  - intros [= <-]. reflexivity.
  - destruct (exec m s) as [s1|] eqn:E; cbn [mbind option_bind];
      [|discriminate].
    intros H. rewrite (IH _ H). apply (exec_size _ _ _ E).
Qed.

(** A buffer of [N] slots, more than 32768: filled with 0, then one sample
    7, then [N - 2] samples 1.  The write index is at [N - 1]; the sample at
    position [65537 - N] of the window is a 1, and [getValue] returns the 7
    of slot 0, because [position + _index] is 65536 and wraps to 0. *)
Lemma getValue_wraps_general N :
  32768 < N < 65536 ->
  exists s,
    (s0 ← new N (Some (replicate (Z.to_nat N) 0));
     run ([FillValue 0 N; AddValue 7]
          ++ replicate (Z.to_nat (N - 2)) (AddValue 1)) s0) = Some s /\
    _array s = Some (7 :: replicate (Z.to_nat (N - 2)) 1 ++ [0]) /\
    _count s = N /\ _partial s = N /\ _index s = N - 1 /\
    window s = 0 :: 7 :: replicate (Z.to_nat (N - 2)) 1 /\
    window s !! Z.to_nat (65537 - N) = Some 1 /\
    getValue (65537 - N) s = Some 7.
Proof.
  intros HN.
  assert (is_u16 0 /\ is_u16 1 /\ is_u16 7) as (H0 & H1 & H7)
    by (unfold is_u16; lia).
  (* the constructor *)
  destruct (new N (Some (replicate (Z.to_nat N) 0))) as [s0|] eqn:Hnew.
  2:{ unfold new in Hnew. rewrite clear_spec in Hnew; [discriminate|].
      unfold mem_ok. cbn [_array _size]. rewrite length_replicate. lia. }
  assert (inv s0) as Hinv0.
  { apply (new_inv N (Some (replicate (Z.to_nat N) 0))); [lia| |exact Hnew].
    split; [rewrite length_replicate; lia|]. apply Forall_replicate, H0. }
  unfold new in Hnew. rewrite clear_spec in Hnew
    by (unfold mem_ok; cbn [_array _size]; rewrite length_replicate; lia).
  cbn [_size _partial _array fmap option_fmap option_map] in Hnew.
  rewrite length_replicate in Hnew. injection Hnew as Hs0.
  cbn [mbind option_bind]. rewrite run_app. cbn [run exec].
  (* fillValue 0 N *)
  destruct (clear_inv s0 Hinv0) as [Hclr Hinvc].
  unfold fillValue. rewrite Hclr. cbn [mbind option_bind _partial].
  rewrite <- Hs0 in Hinvc |- *.
  cbn [_size _partial _array fmap option_fmap option_map] in Hinvc |- *.
  rewrite length_replicate in Hinvc |- *.
  destruct (Z.gtb_spec N N) as [|_]; [lia|].
  set (c := mk N 0 0 N 0 (Some (replicate (Z.to_nat N) 0)) 0 0) in *.
  destruct (fillValue_loop_shape (Z.to_nat N) 0 c _ Hinvc H0 eq_refl)
    as (s1 & a1 & Hs1 & Hinv1 & Ha1 & Hc1 & Hp1 & Ht1).
  { cbn [_count _partial c]. lia. }
  { reflexivity. }
  assert (~ inert c) as Hnc by (unfold inert; cbn; discriminate).
  pose proof (fillValue_loop_index (Z.to_nat N) 0 c Hinvc H0 Hnc
                ltac:(cbn [_count _partial c]; lia) s1 Hs1) as Hi1.
  cbn [_count _partial _index c] in Hc1, Hp1, Hi1.
  destruct (Z.eqb_spec (0 + Z.of_nat (Z.to_nat N)) N) as [_|]; [|lia].
  destruct (Nat.eqb_spec (Z.to_nat N) 0) as [|_]; [lia|].
  rewrite Hs1. cbn [mbind option_bind].
  pose proof (fillValue_loop_size _ _ _ _ Hs1) as Hz1. cbn [_size c] in Hz1.
  pose proof Hinv1 as [_ H]. rewrite Ha1 in H.
  destruct H as (Hlen1 & _).
  (* addValue 7 *)
  destruct (addValue_inv s1 7 Hinv1 H7) as (s2 & Hs2 & Hinv2).
  destruct (lookup_lt_is_Some_2 a1 (Z.to_nat (_index s1))) as [old Hold];
    [lia|].
  pose proof Hs2 as Hs2'. rewrite (addValue_spec _ _ _ _ Ha1 Hold) in Hs2'.
  injection Hs2' as Hs2'. rewrite Hi1, Hc1, Hp1 in Hs2'.
  destruct (Z.ltb_spec (0 + Z.of_nat (Z.to_nat N)) N) as [|_]; [lia|].
  change (wrap16 (0 + 1)) with 1 in Hs2'.
  destruct (Z.eqb_spec 1 N) as [|_]; [lia|].
  cbn [Z.to_nat] in Hs2'.
  assert (_count s2 = N) as Hc2 by (rewrite <- Hs2'; cbn [_count]; lia).
  assert (_partial s2 = N) as Hp2 by (rewrite <- Hs2'; reflexivity).
  assert (_index s2 = 1) as Hi2 by (rewrite <- Hs2'; reflexivity).
  assert (_array s2 = Some (<[0%nat := 7]> a1)) as Ha2
    by (rewrite <- Hs2'; reflexivity).
  rewrite Hs2. cbn [mbind option_bind].
  (* N - 2 times addValue 1 *)
  destruct (addValue_many_full (Z.to_nat (N - 2)) 1 s2 _ Hinv2 H1 Ha2
              ltac:(lia) ltac:(lia))
    as (s3 & Hs3 & Hinv3 & Ha3 & Hi3 & Hc3 & Hp3).
  rewrite Hi2 in Ha3, Hi3.
  (* the block *)
  set (n2 := Z.to_nat (N - 2)) in *.
  assert (Z.to_nat N = S (S n2)) as HN2 by lia.
  assert (a1 = 0 :: 0 :: replicate n2 0) as Ea1.
  { rewrite <- (take_ge a1 (Z.to_nat (_count s1))) by lia.
    rewrite Ht1, Hc1. replace (Z.to_nat (0 + Z.of_nat (Z.to_nat N)))
      with (S (S n2)) by lia. reflexivity. }
  rewrite Ea1 in Ha3. change (Z.to_nat 1) with 1%nat in Ha3.
  cbn [insert list_insert take drop app Nat.add] in Ha3.
  rewrite <- replicate_S, drop_replicate in Ha3.
  replace (S n2 - n2)%nat with 1%nat in Ha3 by lia.
  cbn [replicate] in Ha3.
  assert (window s3 = 0 :: 7 :: replicate n2 1) as Hw3.
  { unfold window, slots. rewrite Ha3, Hc3, Hc2, Hp3, Hp2, Hi3.
    cbn [default from_option id].
    destruct (Z.ltb_spec N N) as [|_]; [lia|].
    replace (Z.to_nat (1 + Z.of_nat n2)) with (S n2) by lia.
    rewrite take_ge by (cbn [length]; rewrite length_app, length_replicate;
                        cbn [length]; lia).
    cbn [take drop].
    rewrite drop_app_length' by (rewrite length_replicate; reflexivity).
    rewrite take_app_length' by (rewrite length_replicate; reflexivity).
    reflexivity. }
  exists s3. split; [exact Hs3|]. split; [exact Ha3|].
  split; [lia|]. split; [lia|]. split; [lia|]. split; [exact Hw3|].
  split.
  - rewrite Hw3.
    replace (Z.to_nat (65537 - N)) with (S (S (Z.to_nat (65535 - N)))) by lia.
    cbn [lookup list_lookup]. apply lookup_replicate_2. lia.
  - unfold getValue. rewrite Hc3, Hc2, Hi3.
    destruct (Z.eqb_spec N 0) as [|_]; [lia|].
    destruct (Z.geb_spec (65537 - N) N) as [|_]; [lia|].
    replace (65537 - N + (1 + Z.of_nat n2)) with 65536 by lia.
    change (wrap16 65536) with 0.
    destruct (Z.geb_spec 0 N) as [|_]; [lia|].
    unfold load. rewrite Ha3. reflexivity.
Qed.

(** ** The sample objects are reachable *)

Lemma reachable_sample_fresh : reachable sample_fresh.
Proof.
  apply (reach_new 2 (Some [0; 0])); [lia| |reflexivity].
  split; [reflexivity|]. repeat constructor; lia.
Qed.

Lemma reachable_sample_one : reachable sample_one.
Proof.
  apply (reach_exec (AddValue 7) sample_fresh);
    [exact reachable_sample_fresh|cbn; u16|reflexivity].
Qed.

Lemma reachable_sample_max : reachable sample_max.
Proof.
  apply (reach_exec (AddValue 65535) sample_fresh);
    [exact reachable_sample_fresh|cbn; u16|reflexivity].
Qed.

Lemma reachable_sample_full : reachable sample_full.
Proof.
  apply (reachable_run [AddValue 7; AddValue 14; AddValue 9] sample_fresh);
    [exact reachable_sample_fresh| |reflexivity].
  repeat constructor; cbn; lia.
Qed.

(** ** What the invariant says about the sum *)

Lemma inv_sum s : inv s -> _sum s = wrap16 (sumZ (valid_slots s)).
Proof.
  intros [_ H]. unfold valid_slots, slots.
  destruct (_array s) as [a|]; cbn [default from_option id].
  - tauto.
  - rewrite take_nil. cbn. tauto.
Qed.

Lemma inv_valid_slots_u16 s : inv s -> Forall is_u16 (valid_slots s).
Proof.
  intros [_ H]. unfold valid_slots, slots.
  destruct (_array s) as [a|]; cbn [default from_option id].
  - apply Forall_take. tauto.
  - rewrite take_nil. constructor.
Qed.

(** The window holds the valid slots, in another order once full. *)
Lemma sumZ_window s : inv s -> sumZ (window s) = sumZ (valid_slots s).
Proof.
  intros [_ H]. unfold window, valid_slots, slots.
  destruct (_array s) as [a|]; cbn [default from_option id].
  - destruct H as (Hlen & Hpart & Hsz & Hc & Hi & _).
    destruct (Z.ltb_spec (_count s) (_partial s)) as [|Hge]; [reflexivity|].
    replace (_count s) with (_partial s) by lia.
    assert (take (Z.to_nat (_index s)) a
            = take (Z.to_nat (_index s)) (take (Z.to_nat (_partial s)) a))
      as -> by (rewrite take_take; f_equal; lia).
    rewrite sumZ_app, Z.add_comm, <- sumZ_app, take_drop. reflexivity.
  - destruct (_count s <? _partial s); rewrite ?take_nil, ?drop_nil;
      reflexivity.
Qed.

(** * The claims *)

(** C1 (the code at the failing input): capacity 2, samples 65535 and
    65535, whatever the fresh block held.  Both slots are valid and they sum
    to 131070; [_sum], a [uint16_t], holds 131070 - 65536 = 65534.
    [getFastAverage], which divides [_sum], returns 32767, while
    [getAverageLast], which adds up the same two slots in a [float], returns
    65535.  Likewise with 100 samples of 1000 on a capacity of 100: the slots
    sum to 100000, [_sum] holds 34464, and the two averages are 344 and
    1000. *)
Theorem sum_wraps_at_65536 (x y : Z) :
  (exists s,
     (s0 ← new 2 (Some [x; y]);
      run [AddValue 65535; AddValue 65535] s0) = Some s /\
     _count s = 2 /\ valid_slots s = [65535; 65535] /\
     sumZ (valid_slots s) = 131070 /\ _sum s = 65534 /\
     getFastAverage s = 32767 /\
     getAverageLast 2 s = Some (Val 65535)) /\
  (exists s,
     (s0 ← new 100 (Some (replicate 100 0));
      run (replicate 100 (AddValue 1000)) s0) = Some s /\
     _count s = 100 /\ valid_slots s = replicate 100 1000 /\
     sumZ (valid_slots s) = 100000 /\ _sum s = 34464 /\
     getFastAverage s = 344 /\
     getAverageLast 100 s = Some (Val 1000)).
Proof.
  split.
  - exists (mk 2 2 0 2 65534 (Some [65535; 65535]) 65535 65535).
    split; [vm_compute; reflexivity|]. repeat split.
  - exists (mk 100 100 0 100 34464 (Some (replicate 100 1000)) 1000 1000).
    repeat split; vm_compute; reflexivity.
Qed.

(** C2: capacity 3, window 3, samples 1, 2, 3, 4 in that order: the block
    holds [4; 2; 3], the write index is 1, the fast average is 3, the
    observed extremes are 1 and 4 and the extremes in the buffer 2 and 4,
    whatever the fresh block held. *)
Theorem scenario_capacity_3 (x y z : Z) :
  exists s,
    (s0 ← new 3 (Some [x; y; z]);
     run [AddValue 1; AddValue 2; AddValue 3; AddValue 4] s0) = Some s /\
    _size s = 3 /\ _partial s = 3 /\
    _array s = Some [4; 2; 3] /\ _index s = 1 /\
    getFastAverage s = 3 /\
    getMin s = 1 /\ getMax s = 4 /\
    getMinInBuffer s = Some 2 /\ getMaxInBuffer s = Some 4.
Proof.
  exists (mk 3 3 1 3 9 (Some [4; 2; 3]) 1 4).
  split; [vm_compute; reflexivity|]. repeat split.
Qed.

(** C3 (the code at the failing input): on a fresh object of capacity 2,
    whatever the fresh block held, [fillValue 65535 2] stores two copies of
    65535 and leaves [_sum = 131070 - 65536 = 65534]: [getFastAverage]
    returns 32767, not 65535, while [getAverageLast], which adds up the two
    slots in a [float], returns 65535.  Likewise [fillValue 1000 100] on a
    capacity of 100: [_sum] holds 100000 - 65536 = 34464 and
    [getFastAverage] returns 344, not 1000. *)
Theorem fillValue_sum_wraps (x y : Z) :
  (exists s,
     (s0 ← new 2 (Some [x; y]); fillValue 65535 2 s0) = Some s /\
     _array s = Some [65535; 65535] /\ _count s = 2 /\ _sum s = 65534 /\
     getFastAverage s = 32767 /\
     getAverageLast 2 s = Some (Val 65535)) /\
  (exists s,
     (s0 ← new 100 (Some (replicate 100 0)); fillValue 1000 100 s0)
     = Some s /\
     _array s = Some (replicate 100 1000) /\ _count s = 100 /\
     _sum s = 34464 /\
     getFastAverage s = 344 /\
     getAverageLast 100 s = Some (Val 1000)).
Proof.
  split.
  - exists (mk 2 2 0 2 65534 (Some [65535; 65535]) 65535 65535).
    split; [vm_compute; reflexivity|]. repeat split.
  - exists (mk 100 100 0 100 34464 (Some (replicate 100 1000)) 1000 1000).
    repeat split; vm_compute; reflexivity.
Qed.

(** C4 (the code at the failing input): two full buffers on which
    [getAverageLast _partial] and [getFastAverage] disagree.  Capacity 2,
    samples 65535 and 65535, whatever the fresh block held: the sum of the
    [float] accumulator is 131070 and [getAverageLast 2] returns 65535; the
    16-bit [_sum] is 65534 and [getFastAverage] returns 32767.  Capacity 5,
    window 2, samples 10 and 20: [getFastAverage] returns 15, while
    [getAverageLast 2] walks back from slot 0 to slots 4 and 3 and returns
    0. *)
Theorem getAverageLast_full_differs (x y : Z) :
  (exists s,
     (s0 ← new 2 (Some [x; y]);
      run [AddValue 65535; AddValue 65535] s0) = Some s /\
     _count s = 2 /\ _partial s = 2 /\ _size s = 2 /\
     window s = [65535; 65535] /\
     getAverageLast (_partial s) s = Some (Val 65535) /\
     getFastAverage s = 32767) /\
  (exists s,
     (s0 ← new 5 (Some [0; 0; 0; 0; 0]);
      run [SetPartial 2; AddValue 10; AddValue 20] s0) = Some s /\
     _count s = 2 /\ _partial s = 2 /\ _size s = 5 /\
     window s = [10; 20] /\
     getAverageLast (_partial s) s = Some (Val 0) /\
     getFastAverage s = 15).
Proof.
  split.
  - exists (mk 2 2 0 2 65534 (Some [65535; 65535]) 65535 65535).
    split; [vm_compute; reflexivity|]. repeat split.
  - exists (mk 5 2 0 2 30 (Some [10; 20; 0; 0; 0]) 10 20).
    split; [vm_compute; reflexivity|]. repeat split.
Qed.

(** C5 (the code at the failing input): capacity 5, window 2, samples 10
    and 20.  The two most recent samples average 15, which is what the walk
    wrapping at [_partial] gives; [getAverageLast 2] wraps at [_size], reads
    slots 4 and 3 and returns 0. *)
Theorem getAverageLast_wraps_at_size :
  exists s,
    (s0 ← new 5 (Some [0; 0; 0; 0; 0]);
     run [SetPartial 2; AddValue 10; AddValue 20] s0) = Some s /\
    _array s = Some [10; 20; 0; 0; 0] /\ _index s = 0 /\
    _count s = 2 /\ _partial s = 2 /\ _size s = 5 /\
    window s = [10; 20] /\
    AverageLast_spec 2 s = Some (Val 15) /\
    getAverageLast 2 s = Some (Val 0).
Proof.
  exists (mk 5 2 0 2 30 (Some [10; 20; 0; 0; 0]) 10 20).
  split; [vm_compute; reflexivity|]. repeat split.
Qed.

(** C6: on a reachable object with storage, [addValue] completes; when
    [_count] is 0 both [_min] and [_max] become the value, otherwise [_min]
    changes only to a strictly smaller value and [_max] only to a strictly
    greater one. *)
Theorem addValue_min_max (s : t) (v : Z) :
  reachable s -> ~ inert s -> is_u16 v ->
  exists s', addValue v s = Some s' /\
    (_count s = 0 -> _min s' = v /\ _max s' = v) /\
    (_count s <> 0 ->
       _min s' = (if v <? _min s then v else _min s) /\
       _max s' = (if v >? _max s then v else _max s)).
Proof.
  intros Hr Hn Hv. apply reachable_inv in Hr. destruct Hr as [_ H].
  unfold inert in Hn. destruct (_array s) as [a|] eqn:Ha; [|congruence].
  destruct H as (Hlen & Hpart & Hsz & Hc & Hi & _ & _ & _ & _ & _ & _ & Hmm).
  destruct (lookup_lt_is_Some_2 a (Z.to_nat (_index s))) as [old Hold]; [lia|].
  eexists. split; [apply (addValue_spec _ _ _ _ Ha Hold)|].
  cbn [_min _max]. split.
  - intros ->. split; reflexivity.
  - intros Hne. destruct (Z.eqb_spec (_count s) 0) as [|_]; [contradiction|].
    split; [reflexivity|].
    destruct (Z.ltb_spec v (_min s)); [|reflexivity].
    destruct (Z.gtb_spec v (_max s)); [lia|reflexivity].
Qed.

(** C6, an instance: sample 5 after sample 7. *)
Lemma addValue_min_max_witness :
  reachable sample_one /\ ~ inert sample_one /\ is_u16 5 /\
  exists s', addValue 5 sample_one = Some s' /\
    (_count sample_one = 0 -> _min s' = 5 /\ _max s' = 5) /\
    (_count sample_one <> 0 ->
       _min s' = (if 5 <? _min sample_one then 5 else _min sample_one) /\
       _max s' = (if 5 >? _max sample_one then 5 else _max sample_one)).
Proof.
  assert (~ inert sample_one) as Hn by (unfold inert; discriminate).
  assert (is_u16 5) as Hv by u16.
  split; [exact reachable_sample_one|]. split; [exact Hn|].
  split; [exact Hv|].
  exact (addValue_min_max sample_one 5 reachable_sample_one Hn Hv).
Defined.

(** C7 (the code at the failing input): capacity 3, one sample;
    [getElement] with index 3 or 65535 reads a slot outside the block of 3
    slots: at index 3 memory behind the block that nothing initialised, at
    index 65535 memory far outside the allocation. *)
Theorem getElement_out_of_bounds :
  exists s,
    (s0 ← new 3 (Some [0; 0; 0]); run [AddValue 1] s0) = Some s /\
    _array s = Some [1; 0; 0] /\ _size s = 3 /\ _count s = 1 /\
    getElement 2 s = Some 0 /\
    getElement 3 s = None /\
    getElement 65535 s = None.
Proof.
  exists (mk 3 1 1 3 1 (Some [1; 0; 0]) 1 1).
  split; [vm_compute; reflexivity|]. repeat split.
Qed.

(** C8 (the code at the failing input): capacity 40000, filled with 0,
    then sample 7, then 39998 samples 1.  The buffer is full and the write
    index is 39999.  The sample at position 25537, counted from the oldest,
    is 1; [getValue 25537] adds 25537 + 39999 = 65536 in 16 bits, gets 0, and
    returns the 7 of slot 0. *)
Theorem getValue_wraps_at_65536 :
  exists s,
    (s0 ← new 40000 (Some (replicate (Z.to_nat 40000) 0));
     run ([FillValue 0 40000; AddValue 7]
          ++ replicate (Z.to_nat 39998) (AddValue 1)) s0) = Some s /\
    _array s = Some (7 :: replicate (Z.to_nat 39998) 1 ++ [0]) /\
    _count s = 40000 /\ _partial s = 40000 /\ _index s = 39999 /\
    window s = 0 :: 7 :: replicate (Z.to_nat 39998) 1 /\
    window s !! Z.to_nat 25537 = Some 1 /\
    getValue 25537 s = Some 7.
Proof. apply (getValue_wraps_general 40000). lia. Qed.

(** C9: on a reachable object [clear] completes, [setPartial] completes for
    every argument, and afterwards [_count], [_index], [_sum], [_min] and
    [_max] are 0 and every slot of the block holds 0. *)
Theorem clear_setPartial_zero (s : t) :
  reachable s ->
  (exists s', clear s = Some s' /\ zeroed s' /\
              length (slots s') = length (slots s)) /\
  (forall p, is_u16 p ->
     exists s', setPartial p s = Some s' /\ zeroed s' /\
                length (slots s') = length (slots s)).
Proof.
  intros Hr. apply reachable_inv in Hr.
  assert (forall q,
    zeroed (mk (_size s) 0 0 q 0
               ((fun a => replicate (length a) 0) <$> _array s) 0 0) /\
    length (slots (mk (_size s) 0 0 q 0
               ((fun a => replicate (length a) 0) <$> _array s) 0 0))
    = length (slots s)) as Hz.
  { intros q. unfold zeroed, slots. cbn [_count _index _sum _min _max _array].
    destruct (_array s) as [a|]; simpl.
    - rewrite length_replicate. repeat split. apply Forall_replicate_eq.
    - repeat split. constructor. }
  split.
  - destruct (clear_inv s Hr) as [-> _]. eexists. split; [reflexivity|apply Hz].
  - intros p Hp. destruct (setPartial_inv s p Hr Hp) as [-> _].
    eexists. split; [reflexivity|apply Hz].
Qed.

(** C9, an instance: a buffer of capacity 2 that holds one sample. *)
Lemma clear_setPartial_zero_witness :
  reachable sample_one /\
  (exists s', clear sample_one = Some s' /\ zeroed s' /\
              length (slots s') = length (slots sample_one)) /\
  (forall p, is_u16 p ->
     exists s', setPartial p sample_one = Some s' /\ zeroed s' /\
                length (slots s') = length (slots sample_one)).
Proof.
  split; [exact reachable_sample_one|].
  exact (clear_setPartial_zero sample_one reachable_sample_one).
Defined.

(** C10: on a reachable object that holds at least one sample,
    [getAverage] completes, returns what [getFastAverage] returns, and leaves
    [_sum] (indeed the whole object) as it was. *)
Theorem getAverage_is_getFastAverage (s : t) :
  reachable s -> _count s <> 0 ->
  exists s', getAverage s = Some (Val (getFastAverage s), s') /\
    _sum s' = _sum s /\ s' = s.
Proof.
  intros Hr Hc. apply reachable_inv in Hr. exists s.
  rewrite (getAverage_inv s Hr Hc). unfold getFastAverage.
  destruct (Z.eqb_spec (_count s) 0) as [|_]; [contradiction|].
  repeat split.
Qed.

(** C10, an instance: capacity 2 after the samples 7, 14, 9. *)
Lemma getAverage_is_getFastAverage_witness :
  reachable sample_full /\ _count sample_full <> 0 /\
  exists s', getAverage sample_full
             = Some (Val (getFastAverage sample_full), s') /\
    _sum s' = _sum sample_full /\ s' = sample_full.
Proof.
  assert (_count sample_full <> 0) as Hc by discriminate.
  split; [exact reachable_sample_full|]. split; [exact Hc|].
  exact (getAverage_is_getFastAverage sample_full reachable_sample_full Hc).
Defined.

(** * Further properties of the code *)

(** ** More reachable sample objects *)

Lemma reachable_sample_inert : reachable sample_inert.
Proof. apply (reach_new 3 None); [lia|exact I|reflexivity]. Qed.

Lemma reachable_sample_partial : reachable sample_partial.
Proof.
  apply (reachable_run [SetPartial 2; AddValue 10; AddValue 20]
           (mk 5 0 0 5 0 (Some [0; 0; 0; 0; 0]) 0 0)).
  - apply (reach_new 5 (Some [0; 0; 0; 0; 0])); [lia| |reflexivity].
    split; [reflexivity|]. repeat constructor; lia.
  - repeat constructor; cbn; lia.
  - reflexivity.
Qed.

Lemma reachable_sample_three : reachable sample_three.
Proof.
  apply (reachable_run [AddValue 5; AddValue 3; AddValue 9]
           (mk 4 0 0 4 0 (Some [0; 0; 0; 0]) 0 0)).
  - apply (reach_new 4 (Some [0; 0; 0; 0])); [lia| |reflexivity].
    split; [reflexivity|]. repeat constructor; lia.
  - repeat constructor; cbn; lia.
  - reflexivity.
Qed.

(** ** Bounds *)

(** X1: in every reachable state the fields are within their bounds:
    [0 <= _count <= _partial], every field and every slot is a [uint16_t],
    the block has [_size] slots; with storage
    [1 <= _partial <= _size] and [_index < _partial], and [_index = _count]
    until the buffer is full; without storage [_size] and [_count] are 0. *)
Theorem reachable_bounds (s : t) :
  reachable s ->
  0 <= _count s <= _partial s /\ is_u16 (_partial s) /\ is_u16 (_size s) /\
  is_u16 (_index s) /\ is_u16 (_sum s) /\ is_u16 (_min s) /\ is_u16 (_max s) /\
  _min s <= _max s /\
  Z.of_nat (length (slots s)) = _size s /\ Forall is_u16 (slots s) /\
  (~ inert s ->
     0 < _partial s <= _size s /\ 0 <= _index s < _partial s /\
     (_count s < _partial s -> _index s = _count s)) /\
  (inert s -> _size s = 0 /\ _count s = 0 /\ _index s = 0).
Proof.
  intros Hr. apply reachable_inv in Hr. destruct Hr as [Hp H].
  unfold inert, slots. unfold is_u16 in *.
  destruct (_array s) as [a|]; cbn [default from_option id].
  - destruct H as (Hlen & Hpart & Hsz & Hc & Hi & Hci & Hu & Hz & Hsum & Hmin
                   & Hmax & Hmm).
    assert (0 <= _sum s < 65536) as Hs
      by (rewrite Hsum; apply wrap16_u16).
    repeat apply conj; try lia; try assumption.
    intros [=].
  - destruct H as (-> & -> & -> & -> & -> & ->).
    repeat apply conj; try lia; try reflexivity; try constructor.
    all: exfalso; congruence.
Qed.

(** X1, an instance: capacity 5 with a window of 2, full. *)
Lemma reachable_bounds_witness :
  reachable sample_partial /\
  (0 <= _count sample_partial <= _partial sample_partial /\
   is_u16 (_partial sample_partial) /\ is_u16 (_size sample_partial) /\
   is_u16 (_index sample_partial) /\ is_u16 (_sum sample_partial) /\
   is_u16 (_min sample_partial) /\ is_u16 (_max sample_partial) /\
   _min sample_partial <= _max sample_partial /\
   Z.of_nat (length (slots sample_partial)) = _size sample_partial /\
   Forall is_u16 (slots sample_partial) /\
   (~ inert sample_partial ->
      0 < _partial sample_partial <= _size sample_partial /\
      0 <= _index sample_partial < _partial sample_partial /\
      (_count sample_partial < _partial sample_partial ->
       _index sample_partial = _count sample_partial)) /\
   (inert sample_partial ->
      _size sample_partial = 0 /\ _count sample_partial = 0 /\
      _index sample_partial = 0)).
Proof.
  split; [exact reachable_sample_partial|].
  exact (reachable_bounds sample_partial reachable_sample_partial).
Defined.

(** ** The capacity and the window length *)

Lemma clear_partial s s' : clear s = Some s' -> _partial s' = _partial s.
Proof.
  unfold clear. destruct (clear_loop _ _); cbn [mbind option_bind];
    [|discriminate].
  intros [= <-]. reflexivity.
Qed.

Lemma addValue_partial v s s' :
  addValue v s = Some s' -> _partial s' = _partial s.
Proof.
  unfold addValue. destruct (_array s) as [a|]; [|intros [= <-]; reflexivity].
  destruct (load _ _); cbn [mbind option_bind]; [|discriminate].
  destruct (store _ _ _); cbn [mbind option_bind]; [|discriminate].
  destruct (load _ _); cbn [mbind option_bind]; [|discriminate].
  intros [= <-]. reflexivity.
Qed.

Lemma fillValue_loop_partial n v s s' :
  fillValue_loop n v s = Some s' -> _partial s' = _partial s.
Proof.
  revert s. induction n as [|n IH]; intros s; cbn [fillValue_loop].
  - intros [= <-]. reflexivity.
  - destruct (addValue v s) as [s1|] eqn:E; cbn [mbind option_bind];
      [|discriminate].
    intros H. rewrite (IH _ H). apply (addValue_partial _ _ _ E).
Qed.

Lemma exec_partial m s s' :
  keeps_window m -> exec m s = Some s' -> _partial s' = _partial s.
Proof.
  destruct m as [|v|v n|p]; cbn [exec keeps_window]; intros Hk.
  - apply clear_partial.
  - apply addValue_partial.
  - unfold fillValue. destruct (clear s) as [s0|] eqn:E;
      cbn [mbind option_bind]; [|discriminate].
    intros H. rewrite (fillValue_loop_partial _ _ _ _ H).
    apply (clear_partial _ _ E).
  - contradiction.
Qed.

(** X2: whatever sequence of mutating calls is made on a reachable object,
    every call returns, the capacity [_size] stays what the constructor set,
    and the window length [_partial] changes only if [setPartial] is among
    the calls. *)
Theorem capacity_is_fixed (s : t) (ms : list mutation) :
  reachable s -> Forall mutation_args_ok ms ->
  exists s', run ms s = Some s' /\ getSize s' = getSize s /\
    (Forall keeps_window ms -> getPartial s' = getPartial s).
Proof.
  intros Hr. apply reachable_inv in Hr. revert s Hr.
  induction ms as [|m ms IH]; intros s Hinv Hms.
  - exists s. repeat split.
  - apply Forall_cons_1 in Hms as [Hm Hms].
    destruct (exec_inv m s Hinv Hm) as (s1 & Hs1 & Hinv1).
    destruct (IH s1 Hinv1 Hms) as (s2 & Hs2 & Hsz & Hpt).
    exists s2. cbn [run]. rewrite Hs1. cbn [mbind option_bind].
    split; [exact Hs2|]. unfold getSize, getPartial in *. split.
    + rewrite Hsz. apply (exec_size _ _ _ Hs1).
    + intros Hk. apply Forall_cons_1 in Hk as [Hk Hks].
      rewrite (Hpt Hks). apply (exec_partial _ _ _ Hk Hs1).
Qed.

(** X2, an instance: a refill and two samples on a window of 2 out of 5. *)
Lemma capacity_is_fixed_witness :
  reachable sample_partial /\
  Forall mutation_args_ok [FillValue 9 7; AddValue 1; Clear; AddValue 2] /\
  exists s',
    run [FillValue 9 7; AddValue 1; Clear; AddValue 2] sample_partial = Some s' /\
    getSize s' = getSize sample_partial /\
    (Forall keeps_window [FillValue 9 7; AddValue 1; Clear; AddValue 2] ->
     getPartial s' = getPartial sample_partial).
Proof.
  assert (Forall mutation_args_ok [FillValue 9 7; AddValue 1; Clear; AddValue 2])
    as Hms by (repeat constructor; cbn; lia).
  split; [exact reachable_sample_partial|]. split; [exact Hms|].
  exact (capacity_is_fixed sample_partial _ reachable_sample_partial Hms).
Defined.

(** ** bufferIsFull *)

(** X3: [bufferIsFull] compares [_count] with the capacity [_size]: on a
    reachable object it is true exactly when the object has no storage, or
    the window is the whole capacity and is full.  With a window shorter
    than the capacity it is false however many samples were added. *)
Theorem bufferIsFull_spec (s : t) :
  reachable s ->
  (bufferIsFull s = true <->
   inert s \/ (_count s = _partial s /\ _partial s = _size s)) /\
  (~ inert s -> _partial s < _size s -> bufferIsFull s = false).
Proof.
  intros Hr. apply reachable_inv in Hr. destruct Hr as [Hp H].
  unfold bufferIsFull, inert.
  destruct (_array s) as [a|].
  - destruct H as (Hlen & Hpart & Hsz & Hc & _).
    destruct (Z.eqb_spec (_count s) (_size s)) as [He|Hne]; split.
    + split; [intros _; right; lia|reflexivity].
    + intros _ Hlt. lia.
    + split; [discriminate|]. intros [[=]|[H1 H2]]. lia.
    + reflexivity.
  - destruct H as (-> & -> & _). split.
    + split; [left; reflexivity|reflexivity].
    + intros Hn. contradiction Hn. reflexivity.
Qed.

(** X3, an instance: capacity 5, window 2, two samples: the window is full
    and [bufferIsFull] says no. *)
Lemma bufferIsFull_spec_witness :
  reachable sample_partial /\
  _count sample_partial = _partial sample_partial /\
  bufferIsFull sample_partial = false /\
  (bufferIsFull sample_partial = true <->
   inert sample_partial \/
   (_count sample_partial = _partial sample_partial /\
    _partial sample_partial = _size sample_partial)) /\
  (~ inert sample_partial -> _partial sample_partial < _size sample_partial ->
   bufferIsFull sample_partial = false).
Proof.
  split; [exact reachable_sample_partial|]. split; [reflexivity|].
  split; [reflexivity|].
  exact (bufferIsFull_spec sample_partial reachable_sample_partial).
Defined.

(** ** Reset *)

(** X4: on a reachable object with storage, [clear] leaves the object in
    the state the constructor followed by [setPartial _partial] produces,
    and [setPartial] with 0 or with more than the capacity leaves it in the
    very state the constructor produced; [setPartial p] with
    [1 <= p <= _size] differs from that only by the window length [p]. *)
Theorem reset_is_fresh (s : t) (p : Z) :
  reachable s -> ~ inert s -> is_u16 p ->
  (exists s', clear s = Some s' /\
     (s0 ← new (_size s) (_array s); setPartial (_partial s) s0) = Some s') /\
  (exists s', setPartial p s = Some s' /\
     (s0 ← new (_size s) (_array s); setPartial p s0) = Some s' /\
     (p = 0 \/ _size s < p -> new (_size s) (_array s) = Some s') /\
     (1 <= p <= _size s -> _partial s' = p)).
Proof.
  intros Hr Hn Hp. apply reachable_inv in Hr.
  pose proof (inv_mem_ok s Hr) as Hmem.
  pose proof Hr as [Hpu H]. unfold inert in Hn.
  destruct (_array s) as [a|] eqn:Ha; [|congruence].
  destruct H as (Hlen & Hpart & Hsz & _).
  assert (new (_size s) (Some a)
          = Some (mk (_size s) 0 0 (_size s) 0
                     (Some (replicate (length a) 0)) 0 0)) as Hnew.
  { unfold new. rewrite clear_spec; [reflexivity|]. exact Hlen. }
  assert (forall q, setPartial q (mk (_size s) 0 0 (_size s) 0
                     (Some (replicate (length a) 0)) 0 0)
          = Some (mk (_size s) 0 0
                     (if (q =? 0) || (q >? _size s) then _size s else q) 0
                     (Some (replicate (length a) 0)) 0 0)) as Hset.
  { intros q. unfold setPartial. rewrite clear_spec.
    - cbn [_size _partial _array fmap option_fmap option_map].
      rewrite length_replicate. reflexivity.
    - unfold mem_ok. cbn [_array _size]. rewrite length_replicate. exact Hlen. }
  split.
  - rewrite (clear_spec s Hmem), Ha, Hnew. cbn [mbind option_bind].
    rewrite Hset. eexists. split; [reflexivity|].
    destruct (Z.eqb_spec (_partial s) 0) as [|_]; [lia|].
    destruct (Z.gtb_spec (_partial s) (_size s)) as [|_]; [lia|].
    reflexivity.
  - unfold setPartial at 1. rewrite clear_spec by (unfold mem_ok; cbn; rewrite Ha; exact Hlen).
    cbn [_size _partial _array]. rewrite Ha, Hnew. cbn [mbind option_bind].
    rewrite Hset. eexists. split; [reflexivity|]. split; [reflexivity|].
    cbn [_partial fmap option_fmap option_map]. split.
    + intros [->|Hgt].
      * reflexivity.
      * destruct (Z.eqb_spec p 0); cbn [orb]; [reflexivity|].
        destruct (Z.gtb_spec p (_size s)); [reflexivity|lia].
    + intros Hin. destruct (Z.eqb_spec p 0) as [|_]; [lia|]. cbn [orb].
      destruct (Z.gtb_spec p (_size s)) as [|_]; [lia|]. reflexivity.
Qed.

(** X4, an instance: a full buffer of capacity 2, window set to 0. *)
Lemma reset_is_fresh_witness :
  reachable sample_full /\ ~ inert sample_full /\ is_u16 0 /\
  (exists s', clear sample_full = Some s' /\
     (s0 ← new (_size sample_full) (_array sample_full);
      setPartial (_partial sample_full) s0) = Some s') /\
  (exists s', setPartial 0 sample_full = Some s' /\
     (s0 ← new (_size sample_full) (_array sample_full);
      setPartial 0 s0) = Some s' /\
     (0 = 0 \/ _size sample_full < 0 ->
      new (_size sample_full) (_array sample_full) = Some s') /\
     (1 <= 0 <= _size sample_full -> _partial s' = 0)).
Proof.
  assert (~ inert sample_full) as Hn by (unfold inert; discriminate).
  assert (is_u16 0) as Hp by u16.
  split; [exact reachable_sample_full|]. split; [exact Hn|].
  split; [exact Hp|].
  exact (reset_is_fresh sample_full 0 reachable_sample_full Hn Hp).
Defined.

(** ** An object without storage *)

Lemma fillValue_loop_inert n v s : inert s -> fillValue_loop n v s = Some s.
Proof.
  intros Hi. induction n as [|n IH]; [reflexivity|].
  cbn [fillValue_loop]. rewrite (addValue_inert s v Hi). exact IH.
Qed.

Lemma exec_inert m s s' :
  inv s -> inert s -> exec m s = Some s' -> inert s'.
Proof.
  intros Hinv Hi. pose proof (clear_inv s Hinv) as [Hc _].
  unfold inert in *. rewrite Hi in Hc.
  destruct m as [|v|v n|p]; cbn [exec].
  - rewrite Hc. intros [= <-]. reflexivity.
  - rewrite (addValue_inert s v Hi). intros [= <-]. exact Hi.
  - unfold fillValue. rewrite Hc. cbn [mbind option_bind].
    rewrite fillValue_loop_inert by reflexivity. intros [= <-]. reflexivity.
  - unfold setPartial. rewrite clear_spec.
    + cbn [_array]. rewrite Hi. intros [= <-]. reflexivity.
    + unfold mem_ok. cbn [_array _size]. rewrite Hi.
      destruct Hinv as [_ H]. rewrite Hi in H. tauto.
Qed.

(** X5: an object whose allocation failed stays empty for ever: every
    sequence of mutating calls returns, the object still has no storage, its
    count and capacity are 0, and the queries answer as on an empty buffer
    (0, or NaN where the source returns NAN) without touching memory. *)
Theorem inert_stays_empty (s : t) (ms : list mutation) :
  reachable s -> inert s -> Forall mutation_args_ok ms ->
  exists s', run ms s = Some s' /\ inert s' /\
    getCount s' = 0 /\ getSize s' = 0 /\ bufferIsFull s' = true /\
    getMin s' = 0 /\ getMax s' = 0 /\
    getFastAverage s' = 0 /\ getAverage s' = Some (NaN, s') /\
    getMinInBuffer s' = Some 0 /\ getMaxInBuffer s' = Some 0 /\
    forall i c, 0 <= c ->
      getElement i s' = Some 0 /\ getValue i s' = Some 0 /\
      getAverageLast c s' = Some NaN /\
      getMinInBufferLast c s' = Some NaN /\
      getMaxInBufferLast c s' = Some NaN /\
      getAverageSubset i c s' = Some FNaN.
Proof.
  intros Hr Hi Hms. apply reachable_inv in Hr.
  assert (exists s', run ms s = Some s' /\ inert s' /\ inv s')
    as (s' & Hrun & Hi' & Hinv').
  { revert s Hr Hi. induction ms as [|m ms IH]; intros s Hinv Hi.
    - exists s. split; [reflexivity|]. split; assumption.
    - apply Forall_cons_1 in Hms as [Hm Hms].
      destruct (exec_inv m s Hinv Hm) as (s1 & Hs1 & Hinv1).
      destruct (IH Hms s1 Hinv1 (exec_inert _ _ _ Hinv Hi Hs1))
        as (s2 & Hs2 & Hi2 & Hinv2).
      exists s2. cbn [run]. rewrite Hs1. cbn [mbind option_bind].
      split; [exact Hs2|]. split; assumption. }
  exists s'. split; [exact Hrun|]. split; [exact Hi'|].
  destruct Hinv' as [_ H]. unfold inert in Hi'. rewrite Hi' in H.
  destruct H as (Hsz & Hc & Hidx & Hsum & Hmin & Hmax).
  unfold getCount, getSize, bufferIsFull, getMin, getMax, getFastAverage,
    getAverage, getMinInBuffer, getMaxInBuffer.
  rewrite Hsz, Hc, Hmin, Hmax. cbn [Z.eqb].
  repeat (split; [reflexivity|]).
  intros i c Hc0.
  unfold getElement, getValue, getAverageLast, getMinInBufferLast,
    getMaxInBufferLast, getAverageSubset.
  rewrite Hc. cbn [Z.eqb].
  assert ((if c >? 0 then 0 else c) = 0) as ->
    by (destruct (Z.gtb_spec c 0); lia).
  repeat split.
Qed.

(** X5, an instance: allocation of 3 slots failed, then samples and a
    refill. *)
Lemma inert_stays_empty_witness :
  reachable sample_inert /\ inert sample_inert /\
  Forall mutation_args_ok [AddValue 5; FillValue 7 2; SetPartial 2; AddValue 9] /\
  exists s',
    run [AddValue 5; FillValue 7 2; SetPartial 2; AddValue 9] sample_inert
    = Some s' /\ inert s' /\
    getCount s' = 0 /\ getSize s' = 0 /\ bufferIsFull s' = true /\
    getMin s' = 0 /\ getMax s' = 0 /\
    getFastAverage s' = 0 /\ getAverage s' = Some (NaN, s') /\
    getMinInBuffer s' = Some 0 /\ getMaxInBuffer s' = Some 0 /\
    forall i c, 0 <= c ->
      getElement i s' = Some 0 /\ getValue i s' = Some 0 /\
      getAverageLast c s' = Some NaN /\
      getMinInBufferLast c s' = Some NaN /\
      getMaxInBufferLast c s' = Some NaN /\
      getAverageSubset i c s' = Some FNaN.
Proof.
  assert (inert sample_inert) as Hi by reflexivity.
  assert (Forall mutation_args_ok
            [AddValue 5; FillValue 7 2; SetPartial 2; AddValue 9]) as Hms
    by (repeat constructor; cbn; lia).
  split; [exact reachable_sample_inert|]. split; [exact Hi|].
  split; [exact Hms|].
  exact (inert_stays_empty sample_inert _ reachable_sample_inert Hi Hms).
Defined.

(** ** The observed extremes *)

Lemma minmax_update c v mn mx :
  mn <= mx ->
  (if c =? 0 then v else if v <? mn then v else mn) <= v /\
  v <= (if c =? 0 then v
        else if v <? mn then mx else if v >? mx then v else mx) /\
  (c <> 0 ->
     (if c =? 0 then v else if v <? mn then v else mn) = Z.min mn v /\
     (if c =? 0 then v
      else if v <? mn then mx else if v >? mx then v else mx) = Z.max mx v).
Proof.
  intros Hle. destruct (Z.eqb_spec c 0) as [->|Hc].
  - split; [lia|]. split; [lia|]. intros H. contradiction.
  - destruct (Z.ltb_spec v mn); destruct (Z.gtb_spec v mx); lia.
Qed.

(** What one [addValue] does to the extremes. *)
Lemma addValue_extremes s v :
  inv s -> ~ inert s -> is_u16 v ->
  exists s', addValue v s = Some s' /\ inv s' /\ ~ inert s' /\
    _count s' <> 0 /\
    _min s' = (if _count s =? 0 then v else Z.min (_min s) v) /\
    _max s' = (if _count s =? 0 then v else Z.max (_max s) v).
Proof.
  intros Hinv Hn Hv. destruct (addValue_inv s v Hinv Hv) as (s1 & Hs1 & Hinv1).
  destruct Hinv as [_ H]. unfold inert in Hn.
  destruct (_array s) as [a|] eqn:Ha; [|congruence].
  destruct H as (Hlen & Hpart & Hsz & Hc & Hi & Hci & _ & _ & _ & _ & _ & Hmm).
  destruct (lookup_lt_is_Some_2 a (Z.to_nat (_index s))) as [old Hold]; [lia|].
  exists s1. split; [exact Hs1|]. split; [exact Hinv1|].
  rewrite (addValue_spec _ _ _ _ Ha Hold) in Hs1. injection Hs1 as <-.
  cbn [_count _min _max]. split; [unfold inert; cbn [_array]; discriminate|].
  split.
  - destruct (Z.ltb_spec (_count s) (_partial s)); [|lia].
    rewrite wrap16_small by (unfold is_u16; lia). lia.
  - pose proof (minmax_update (_count s) v _ _ Hmm) as (_ & _ & Hmin).
    destruct (Z.eqb_spec (_count s) 0) as [|Hc0]; [split; reflexivity|].
    exact (Hmin Hc0).
Qed.

Lemma run_adds_extremes vs s :
  inv s -> ~ inert s -> _count s <> 0 -> Forall is_u16 vs ->
  exists s', run (AddValue <$> vs) s = Some s' /\
    _min s' = foldl Z.min (_min s) vs /\ _max s' = foldl Z.max (_max s) vs.
Proof.
  revert s. induction vs as [|v vs IH]; intros s Hinv Hn Hc Hvs.
  - exists s. repeat split.
  - apply Forall_cons_1 in Hvs as [Hv Hvs].
    destruct (addValue_extremes s v Hinv Hn Hv)
      as (s1 & Hs1 & Hinv1 & Hn1 & Hc1 & Hmin1 & Hmax1).
    destruct (Z.eqb_spec (_count s) 0) as [|_]; [contradiction|].
    destruct (IH s1 Hinv1 Hn1 Hc1 Hvs) as (s2 & Hs2 & Hmin2 & Hmax2).
    exists s2. cbn [fmap list_fmap run exec foldl]. rewrite Hs1.
    cbn [mbind option_bind]. rewrite Hmin2, Hmax2, Hmin1, Hmax1.
    repeat split. exact Hs2.
Qed.

Lemma foldl_min_is_min vs v : is_min (foldl Z.min v vs) (v :: vs).
Proof.
  revert v. induction vs as [|w vs IH]; intros v.
  - split; [left|]. repeat constructor. cbn. lia.
  - cbn [foldl]. destruct (IH (Z.min v w)) as [Hin Hall].
    apply Forall_cons_1 in Hall as [H1 H2]. split.
    + apply elem_of_cons in Hin as [->|Hin].
      * destruct (Z.min_spec v w) as [[_ ->]|[_ ->]];
          [left|right; left].
      * right; right; exact Hin.
    + repeat constructor; try lia. exact H2.
Qed.

Lemma foldl_max_is_max vs v : is_max (foldl Z.max v vs) (v :: vs).
Proof.
  revert v. induction vs as [|w vs IH]; intros v.
  - split; [left|]. repeat constructor. cbn. lia.
  - cbn [foldl]. destruct (IH (Z.max v w)) as [Hin Hall].
    apply Forall_cons_1 in Hall as [H1 H2]. split.
    + apply elem_of_cons in Hin as [->|Hin].
      * destruct (Z.max_spec v w) as [[_ ->]|[_ ->]];
          [right; left|left].
      * right; right; exact Hin.
    + repeat constructor; try lia. exact H2.
Qed.

(** X6: [getMin] and [getMax] are the least and the greatest of all the
    samples added since the last [clear], whether or not they are still in
    the window: after [clear] and any non-empty stream of samples on a
    reachable object with storage, every call returns and the two extremes
    are those of the whole stream. *)
Theorem observed_extremes (s : t) (v : Z) (vs : list Z) :
  reachable s -> ~ inert s -> is_u16 v -> Forall is_u16 vs ->
  exists s0 s',
    clear s = Some s0 /\ run (AddValue <$> v :: vs) s0 = Some s' /\
    is_min (getMin s') (v :: vs) /\ is_max (getMax s') (v :: vs).
Proof.
  intros Hr Hn Hv Hvs. apply reachable_inv in Hr.
  destruct (clear_inv s Hr) as [Hc Hinv0].
  eexists. rewrite Hc.
  assert (~ inert (mk (_size s) 0 0 (_partial s) 0
                      ((fun a => replicate (length a) 0) <$> _array s) 0 0))
    as Hn0.
  { unfold inert in *. cbn [_array]. destruct (_array s); [discriminate|].
    congruence. }
  destruct (addValue_extremes _ v Hinv0 Hn0 Hv)
    as (s1 & Hs1 & Hinv1 & Hn1 & Hc1 & Hmin1 & Hmax1).
  cbn [_count Z.eqb] in Hmin1, Hmax1.
  destruct (run_adds_extremes vs s1 Hinv1 Hn1 Hc1 Hvs)
    as (s2 & Hs2 & Hmin2 & Hmax2).
  exists s2. split; [reflexivity|].
  cbn [fmap list_fmap run exec]. rewrite Hs1. cbn [mbind option_bind].
  split; [exact Hs2|]. unfold getMin, getMax.
  rewrite Hmin2, Hmax2, Hmin1, Hmax1.
  split; [apply foldl_min_is_min|apply foldl_max_is_max].
Qed.

(** X6, an instance: window of 2, stream 7, 1, 9, 4, 4: the extremes 1 and
    9 have both left the window. *)
Lemma observed_extremes_witness :
  reachable sample_full /\ ~ inert sample_full /\ is_u16 7 /\
  Forall is_u16 [1; 9; 4; 4] /\
  exists s0 s',
    clear sample_full = Some s0 /\
    run (AddValue <$> [7; 1; 9; 4; 4]) s0 = Some s' /\
    is_min (getMin s') [7; 1; 9; 4; 4] /\ is_max (getMax s') [7; 1; 9; 4; 4].
Proof.
  assert (~ inert sample_full) as Hn by (unfold inert; discriminate).
  assert (is_u16 7) as Hv by u16.
  assert (Forall is_u16 [1; 9; 4; 4]) as Hvs
    by (repeat constructor; lia).
  split; [exact reachable_sample_full|]. split; [exact Hn|].
  split; [exact Hv|]. split; [exact Hvs|].
  exact (observed_extremes sample_full 7 [1; 9; 4; 4]
           reachable_sample_full Hn Hv Hvs).
Defined.

(** ** The samples of the window lie between the observed extremes *)

Lemma addValue_in_range s v s' :
  inv s -> window_in_range s -> is_u16 v -> addValue v s = Some s' ->
  window_in_range s'.
Proof.
  intros Hinv Hrg Hv Hs'. pose proof Hinv as [_ H].
  unfold window_in_range, valid_slots, slots in *.
  destruct (_array s) as [a|] eqn:Ha.
  2:{ rewrite addValue_inert in Hs' by exact Ha. injection Hs' as <-.
      rewrite Ha. exact Hrg. }
  cbn [default from_option id] in Hrg.
  destruct H as (Hlen & Hpart & Hsz & Hc & Hi & Hci & _ & _ & _ & _ & _ & Hmm).
  destruct (lookup_lt_is_Some_2 a (Z.to_nat (_index s))) as [old Hold]; [lia|].
  rewrite (addValue_spec _ _ _ _ Ha Hold) in Hs'. injection Hs' as <-.
  cbn [_count _min _max _array default from_option id].
  pose proof (minmax_update (_count s) v _ _ Hmm) as (Hlo & Hhi & Hupd).
  set (mn' := if _count s =? 0 then v
              else if v <? _min s then v else _min s) in *.
  set (mx' := if _count s =? 0 then v
              else if v <? _min s then _max s
              else if v >? _max s then v else _max s) in *.
  assert (Forall (fun x => mn' <= x <= mx') (take (Z.to_nat (_count s)) a))
    as Hold'.
  { destruct (Z.eq_dec (_count s) 0) as [->|Hc0]; [constructor|].
    destruct (Hupd Hc0) as [-> ->].
    eapply Forall_impl; [|exact Hrg]. cbn. intros x Hx. lia. }
  destruct (Z.ltb_spec (_count s) (_partial s)) as [Hlt|Hge].
  - rewrite (Hci Hlt). rewrite wrap16_small by (unfold is_u16; lia).
    replace (Z.to_nat (_count s + 1)) with (S (Z.to_nat (_count s))) by lia.
    rewrite (take_S_r _ _ v) by (apply list_lookup_insert_eq; lia).
    rewrite take_insert_ge by lia.
    apply Forall_app_2; [exact Hold'|]. repeat constructor; lia.
  - rewrite take_insert_lt by lia. apply Forall_insert; [exact Hold'|lia].
Qed.

Lemma fillValue_loop_in_range n v s s' :
  inv s -> window_in_range s -> is_u16 v -> fillValue_loop n v s = Some s' ->
  window_in_range s'.
Proof.
  revert s. induction n as [|n IH]; intros s Hinv Hrg Hv; cbn [fillValue_loop].
  - intros [= <-]. exact Hrg.
  - destruct (addValue_inv s v Hinv Hv) as (s1 & Hs1 & Hinv1).
    rewrite Hs1. cbn [mbind option_bind].
    apply IH; [exact Hinv1| |exact Hv].
    exact (addValue_in_range _ _ _ Hinv Hrg Hv Hs1).
Qed.

Lemma cleared_in_range size partial p :
  window_in_range (mk size 0 0 partial 0 p 0 0).
Proof. unfold window_in_range, valid_slots. cbn [_count Z.to_nat take]. constructor. Qed.

Lemma exec_in_range m s s' :
  inv s -> window_in_range s -> mutation_args_ok m -> exec m s = Some s' ->
  window_in_range s'.
Proof.
  intros Hinv Hrg Hm. destruct (clear_inv s Hinv) as [Hc Hinv0].
  destruct m as [|v|v n|p]; cbn [exec mutation_args_ok] in *.
  - rewrite Hc. intros [= <-]. apply cleared_in_range.
  - apply addValue_in_range; assumption.
  - unfold fillValue. rewrite Hc. cbn [mbind option_bind].
    apply fillValue_loop_in_range; [exact Hinv0|apply cleared_in_range|tauto].
  - destruct (setPartial_inv s p Hinv Hm) as [-> _]. intros [= <-].
    apply cleared_in_range.
Qed.

Lemma reachable_in_range s : reachable s -> window_in_range s.
Proof.
  induction 1 as [size block s Hs Hb Hnew|m s s' Hr IH Hm Hex|s r s' Hr IH Hg].
  - unfold new in Hnew. rewrite clear_spec in Hnew.
    + injection Hnew as <-. apply cleared_in_range.
    + unfold mem_ok. cbn [_array _size]. destruct block as [a|]; [|reflexivity].
      destruct Hb as [Hl _]. exact Hl.
  - exact (exec_in_range m s s' (reachable_inv s Hr) IH Hm Hex).
  - rewrite (getAverage_state _ _ _ (reachable_inv s Hr) Hg). exact IH.
Qed.

(** The window holds the valid slots, rotated once the buffer is full. *)
Lemma window_perm s : inv s -> window s ≡ₚ valid_slots s.
Proof.
  intros [_ H]. unfold window, valid_slots, slots.
  destruct (_array s) as [a|]; cbn [default from_option id].
  - destruct H as (Hlen & Hpart & Hsz & Hc & Hi & _).
    destruct (Z.ltb_spec (_count s) (_partial s)) as [|Hge]; [reflexivity|].
    replace (_count s) with (_partial s) by lia.
    assert (take (Z.to_nat (_index s)) a
            = take (Z.to_nat (_index s)) (take (Z.to_nat (_partial s)) a))
      as -> by (rewrite take_take; f_equal; lia).
    rewrite Permutation_app_comm, take_drop. reflexivity.
  - destruct (_count s <? _partial s); rewrite ?take_nil, ?drop_nil;
      reflexivity.
Qed.

(** The range invariant, in terms of the window. *)
Lemma window_within_range_aux s :
  reachable s -> Forall (fun x => getMin s <= x <= getMax s) (window s).
Proof.
  intros Hr. pose proof (reachable_in_range s Hr) as Hrg.
  apply reachable_inv in Hr. unfold window_in_range in Hrg.
  unfold getMin, getMax. rewrite (window_perm s Hr). exact Hrg.
Qed.

(** X7: in every reachable state each sample held in the window lies
    between [getMin] and [getMax]. *)
Theorem window_within_observed (s : t) :
  reachable s -> Forall (fun x => getMin s <= x <= getMax s) (window s).
Proof. exact (window_within_range_aux s). Qed.

(** X7, an instance: capacity 4 after the samples 5, 3, 9. *)
Lemma window_within_observed_witness :
  reachable sample_three /\
  Forall (fun x => getMin sample_three <= x <= getMax sample_three)
         (window sample_three).
Proof.
  split; [exact reachable_sample_three|].
  exact (window_within_observed sample_three reachable_sample_three).
Defined.



(** ** getMinInBuffer, getMaxInBuffer *)

Lemma getMinInBuffer_loop_spec (a : list Z) n i m :
  (i + n <= length a)%nat ->
  getMinInBuffer_loop (Some a) n (Z.of_nat i) m =
  Some (foldl (fun m x => if x <? m then x else m) m (take n (drop i a))).
Proof.
  revert i m. induction n as [|n IH]; intros i m Hn; [reflexivity|].
  destruct (lookup_lt_is_Some_2 a i) as [x Hx]; [lia|].
  cbn [getMinInBuffer_loop]. unfold load. cbn [mbind option_bind].
  rewrite Nat2Z.id, Hx. cbn [mbind option_bind].
  replace (Z.of_nat i + 1) with (Z.of_nat (S i)) by lia.
  rewrite IH by lia. rewrite (drop_S _ _ _ Hx). reflexivity.
Qed.

Lemma getMaxInBuffer_loop_spec (a : list Z) n i m :
  (i + n <= length a)%nat ->
  getMaxInBuffer_loop (Some a) n (Z.of_nat i) m =
  Some (foldl (fun m x => if x >? m then x else m) m (take n (drop i a))).
Proof.
  revert i m. induction n as [|n IH]; intros i m Hn; [reflexivity|].
  destruct (lookup_lt_is_Some_2 a i) as [x Hx]; [lia|].
  cbn [getMaxInBuffer_loop]. unfold load. cbn [mbind option_bind].
  rewrite Nat2Z.id, Hx. cbn [mbind option_bind].
  replace (Z.of_nat i + 1) with (Z.of_nat (S i)) by lia.
  rewrite IH by lia. rewrite (drop_S _ _ _ Hx). reflexivity.
Qed.

Lemma foldl_keep_min l m :
  foldl (fun m x => if x <? m then x else m) m l = foldl Z.min m l.
Proof.
  revert m. induction l as [|x l IH]; intros m; [reflexivity|].
  cbn [foldl]. rewrite IH. f_equal. destruct (Z.ltb_spec x m); lia.
Qed.

Lemma foldl_keep_max l m :
  foldl (fun m x => if x >? m then x else m) m l = foldl Z.max m l.
Proof.
  revert m. induction l as [|x l IH]; intros m; [reflexivity|].
  cbn [foldl]. rewrite IH. f_equal. destruct (Z.gtb_spec x m); lia.
Qed.

Lemma is_min_perm m l l' : l ≡ₚ l' -> is_min m l -> is_min m l'.
Proof. intros Hp [Hin Hall]. split; rewrite <- Hp; assumption. Qed.

Lemma is_max_perm m l l' : l ≡ₚ l' -> is_max m l -> is_max m l'.
Proof. intros Hp [Hin Hall]. split; rewrite <- Hp; assumption. Qed.

(** X8: on a reachable object that holds at least one sample,
    [getMinInBuffer] and [getMaxInBuffer] return, without leaving the
    block, the least and the greatest of the samples now in the window;
    they lie between the observed extremes [getMin] and [getMax]. *)
Theorem buffer_extremes (s : t) :
  reachable s -> _count s <> 0 ->
  exists mn mx,
    getMinInBuffer s = Some mn /\ getMaxInBuffer s = Some mx /\
    is_min mn (window s) /\ is_max mx (window s) /\
    getMin s <= mn /\ mn <= mx /\ mx <= getMax s.
Proof.
  intros Hr Hc. pose proof (window_within_range_aux s Hr) as Hrg.
  apply reachable_inv in Hr. pose proof (window_perm s Hr) as Hperm.
  pose proof Hr as [_ H].
  destruct (_array s) as [a|] eqn:Ha; [|lia].
  destruct H as (Hlen & Hpart & Hsz & Hcnt & Hi & _).
  destruct (lookup_lt_is_Some_2 a 0) as [x0 Hx0]; [lia|].
  assert (valid_slots s
          = x0 :: take (Z.to_nat (_count s - 1)) (drop 1 a)) as Hvs.
  { unfold valid_slots, slots. rewrite Ha. cbn [default from_option id].
    replace (Z.to_nat (_count s)) with (S (Z.to_nat (_count s - 1))) by lia.
    destruct a as [|y a']; [discriminate|]. injection Hx0 as ->. reflexivity. }
  unfold getMinInBuffer, getMaxInBuffer.
  destruct (Z.eqb_spec (_count s) 0) as [|_]; [contradiction|].
  assert (load (Some a) 0 = Some x0) as Hl0 by exact Hx0.
  rewrite Ha, Hl0. cbn [mbind option_bind].
  change 1 with (Z.of_nat 1).
  rewrite getMinInBuffer_loop_spec, getMaxInBuffer_loop_spec by lia.
  rewrite foldl_keep_min, foldl_keep_max.
  pose proof (foldl_min_is_min (take (Z.to_nat (_count s - Z.of_nat 1))
                                 (drop 1 a)) x0) as Hmin.
  pose proof (foldl_max_is_max (take (Z.to_nat (_count s - Z.of_nat 1))
                                 (drop 1 a)) x0) as Hmax.
  change (Z.of_nat 1) with 1 in *. rewrite <- Hvs in Hmin, Hmax.
  symmetry in Hperm.
  pose proof (is_min_perm _ _ _ Hperm Hmin) as Hmin'.
  pose proof (is_max_perm _ _ _ Hperm Hmax) as Hmax'.
  eexists. eexists. split; [reflexivity|]. split; [reflexivity|].
  split; [exact Hmin'|]. split; [exact Hmax'|].
  destruct Hmin' as [Hin1 Hall1]. destruct Hmax' as [Hin2 Hall2].
  rewrite list.Forall_forall in Hrg, Hall1.
  pose proof (Hrg _ Hin1) as R1. pose proof (Hrg _ Hin2) as R2.
  pose proof (Hall1 _ Hin2) as R3. lia.
Qed.

(** X8, an instance: capacity 4 after the samples 5, 3, 9. *)
Lemma buffer_extremes_witness :
  reachable sample_three /\ _count sample_three <> 0 /\
  exists mn mx,
    getMinInBuffer sample_three = Some mn /\
    getMaxInBuffer sample_three = Some mx /\
    is_min mn (window sample_three) /\ is_max mx (window sample_three) /\
    getMin sample_three <= mn /\ mn <= mx /\ mx <= getMax sample_three.
Proof.
  assert (_count sample_three <> 0) as Hc by discriminate.
  split; [exact reachable_sample_three|]. split; [exact Hc|].
  exact (buffer_extremes sample_three reachable_sample_three Hc).
Defined.

(** ** The averages *)

(** X9: on a reachable object that holds at least one sample, as long as
    the samples of the window sum to less than 65536, [getFastAverage] and
    [getAverage] return their mean, truncated. *)
Theorem average_is_mean (s : t) :
  reachable s -> _count s <> 0 -> sumZ (window s) < 65536 ->
  getFastAverage s = sumZ (window s) ÷ Z.of_nat (length (window s)) /\
  getAverage s
  = Some (Val (sumZ (window s) ÷ Z.of_nat (length (window s))), s).
Proof.
  intros Hr Hc Hfit. apply reachable_inv in Hr.
  pose proof (inv_sum s Hr) as Hsum.
  pose proof (inv_valid_slots_u16 s Hr) as Hu.
  rewrite <- (sumZ_window s Hr) in Hsum.
  rewrite (getAverage_inv s Hr Hc). unfold getFastAverage.
  destruct (Z.eqb_spec (_count s) 0) as [|_]; [contradiction|].
  rewrite (window_length s Hr), Hsum, wrap16_small; [split; reflexivity|].
  split; [|exact Hfit]. rewrite (sumZ_window s Hr). apply sumZ_nonneg, Hu.
Qed.

(** X9, an instance: capacity 4 after the samples 5, 3, 9. *)
Lemma average_is_mean_witness :
  reachable sample_three /\ _count sample_three <> 0 /\
  sumZ (window sample_three) < 65536 /\
  getFastAverage sample_three
  = sumZ (window sample_three) ÷ Z.of_nat (length (window sample_three)) /\
  getAverage sample_three
  = Some (Val (sumZ (window sample_three)
               ÷ Z.of_nat (length (window sample_three))), sample_three).
Proof.
  assert (_count sample_three <> 0) as Hc by discriminate.
  assert (sumZ (window sample_three) < 65536) as Hfit
    by (vm_compute; reflexivity).
  split; [exact reachable_sample_three|]. split; [exact Hc|].
  split; [exact Hfit|].
  exact (average_is_mean sample_three reachable_sample_three Hc Hfit).
Defined.

(** ** The window slides *)

(** X10: a stream of samples added to a reachable object with storage:
    every [addValue] returns, and the window then holds, oldest first, the
    last [_partial] samples of what it held followed by the stream;
    [getCount] is their number and the window length is unchanged. *)
Theorem window_slides (s : t) (vs : list Z) :
  reachable s -> ~ inert s -> Forall is_u16 vs ->
  exists s', run (AddValue <$> vs) s = Some s' /\
    window s' =
      drop (length (window s ++ vs) - Z.to_nat (getPartial s))
           (window s ++ vs) /\
    getCount s' = Z.of_nat (length (window s')) /\
    getPartial s' = getPartial s.
Proof.
  intros Hr Hn Hvs. apply reachable_inv in Hr.
  destruct (window_run_adds vs s Hr Hn Hvs)
    as (s' & Hrun & Hinv' & _ & Hp & Hw).
  exists s'. unfold getCount, getPartial.
  rewrite (window_length s' Hinv'). repeat split; assumption.
Qed.

(** X10, an instance: a full window 14, 9 followed by 1, 2, 3. *)
Lemma window_slides_witness :
  reachable sample_full /\ ~ inert sample_full /\ Forall is_u16 [1; 2; 3] /\
  exists s', run (AddValue <$> [1; 2; 3]) sample_full = Some s' /\
    window s' =
      drop (length (window sample_full ++ [1; 2; 3])
            - Z.to_nat (getPartial sample_full))
           (window sample_full ++ [1; 2; 3]) /\
    getCount s' = Z.of_nat (length (window s')) /\
    getPartial s' = getPartial sample_full.
Proof.
  assert (~ inert sample_full) as Hn by (unfold inert; discriminate).
  assert (Forall is_u16 [1; 2; 3]) as Hvs by (repeat constructor; lia).
  split; [exact reachable_sample_full|]. split; [exact Hn|].
  split; [exact Hvs|].
  exact (window_slides sample_full [1; 2; 3] reachable_sample_full Hn Hvs).
Defined.

(** ** getValue *)

Lemma getValue_small_window s p :
  inv s -> is_u16 p -> _partial s <= 32768 ->
  getValue p s = Some (default 0 (window s !! Z.to_nat p)).
Proof.
  intros Hinv Hp Hsmall. pose proof (window_length s Hinv) as Hwl.
  destruct (Z.lt_ge_cases p (_count s)) as [Hlt|Hge].
  - apply getValue_window; [exact Hinv|unfold is_u16 in Hp; lia|].
    destruct Hinv as [_ H]. destruct (_array s) as [a|]; lia.
  - rewrite lookup_ge_None_2 by (unfold is_u16 in Hp; lia).
    unfold getValue. destruct (_count s =? 0); [reflexivity|].
    destruct (Z.geb_spec p (_count s)); [reflexivity|lia].
Qed.

(** X11: on a reachable object whose window has at most 32768 slots,
    [getValue position] returns, without leaving the block, the sample at
    that position of the window counted from the oldest, and 0 when the
    window holds no sample at that position. *)
Theorem getValue_oldest_first (s : t) (position : Z) :
  reachable s -> is_u16 position -> _partial s <= 32768 ->
  getValue position s = Some (default 0 (window s !! Z.to_nat position)).
Proof.
  intros Hr. apply reachable_inv in Hr. apply getValue_small_window, Hr.
Qed.

(** X11, an instance: capacity 4 after 5, 3, 9, position 1. *)
Lemma getValue_oldest_first_witness :
  reachable sample_three /\ is_u16 1 /\ _partial sample_three <= 32768 /\
  getValue 1 sample_three
  = Some (default 0 (window sample_three !! Z.to_nat 1)).
Proof.
  assert (is_u16 1) as Hp by u16.
  assert (_partial sample_three <= 32768) as Hs by (cbn; lia).
  split; [exact reachable_sample_three|]. split; [exact Hp|].
  split; [exact Hs|].
  exact (getValue_oldest_first sample_three 1 reachable_sample_three Hp Hs).
Defined.

(** X12: written and read back: on a freshly constructed object of
    capacity at most 32768, after any stream of samples, [getValue p]
    returns the sample at position [p] among the last [capacity] samples of
    the stream, oldest first, and 0 beyond them. *)
Theorem stream_read_back (size : Z) (a vs : list Z) (s0 : t) :
  0 < size <= 32768 -> malloc_result size (Some a) ->
  new size (Some a) = Some s0 -> Forall is_u16 vs ->
  exists s, run (AddValue <$> vs) s0 = Some s /\
    getCount s = Z.min (Z.of_nat (length vs)) size /\
    forall p, is_u16 p ->
      getValue p s
      = Some (default 0 (drop (length vs - Z.to_nat size) vs !! Z.to_nat p)).
Proof.
  intros Hs Hb Hnew Hvs.
  assert (inv s0) as Hinv0 by (apply (new_inv size (Some a)); [lia|assumption..]).
  destruct (window_fresh size a vs s0 ltac:(lia) Hb Hnew Hvs)
    as (s & Hrun & Hw).
  assert (~ inert s0 /\ _partial s0 = size) as [Hn0 Hp0].
  { unfold new in Hnew. rewrite clear_spec in Hnew.
    - injection Hnew as <-. split; [unfold inert; discriminate|reflexivity].
    - unfold mem_ok. cbn [_array _size]. destruct Hb as [Hl _]. exact Hl. }
  destruct (window_run_adds vs s0 Hinv0 Hn0 Hvs)
    as (s1 & Hrun1 & Hinv1 & _ & Hp1 & _).
  rewrite Hrun in Hrun1. injection Hrun1 as <-.
  exists s. split; [exact Hrun|]. split.
  - unfold getCount. rewrite <- (window_length s Hinv1), Hw, length_drop. lia.
  - intros p Hp. rewrite <- Hw.
    apply getValue_small_window; [exact Hinv1|exact Hp|lia].
Qed.

(** X12, an instance: capacity 2, stream 4, 8, 6, position 0. *)
Lemma stream_read_back_witness :
  0 < 2 <= 32768 /\ malloc_result 2 (Some [0; 0]) /\
  new 2 (Some [0; 0]) = Some sample_fresh /\ Forall is_u16 [4; 8; 6] /\
  exists s, run (AddValue <$> [4; 8; 6]) sample_fresh = Some s /\
    getCount s = Z.min (Z.of_nat (length [4; 8; 6])) 2 /\
    forall p, is_u16 p ->
      getValue p s
      = Some (default 0
                (drop (length [4; 8; 6] - Z.to_nat 2) [4; 8; 6] !! Z.to_nat p)).
Proof.
  assert (0 < 2 <= 32768) as Hs by lia.
  assert (malloc_result 2 (Some [0; 0])) as Hb
    by (split; [reflexivity|repeat constructor; lia]).
  assert (new 2 (Some [0; 0]) = Some sample_fresh) as Hnew by reflexivity.
  assert (Forall is_u16 [4; 8; 6]) as Hvs by (repeat constructor; lia).
  split; [exact Hs|]. split; [exact Hb|]. split; [exact Hnew|].
  split; [exact Hvs|].
  exact (stream_read_back 2 [0; 0] [4; 8; 6] sample_fresh Hs Hb Hnew Hvs).
Defined.

(** ** getElement *)

(** X13: on a reachable object, [getElement index] returns 0 while the
    buffer is empty, whatever the index.  With a sample in the buffer and
    [index < _size] it returns the slot at [index], uninterpreted: one of
    the samples of the window for [index < _count], and 0 for every slot at
    or after [_count].  (For [index >= _size] the source has no test; see
    C7.) *)
Theorem getElement_spec (s : t) (index : Z) :
  reachable s -> is_u16 index ->
  (_count s = 0 -> getElement index s = Some 0) /\
  (_count s <> 0 -> index < _size s ->
     exists x, getElement index s = Some x /\
       slots s !! Z.to_nat index = Some x /\ is_u16 x /\
       (index < _count s -> x ∈ window s) /\
       (_count s <= index -> x = 0)).
Proof.
  intros Hr Hi. apply reachable_inv in Hr. pose proof Hr as [_ H].
  pose proof (window_perm s Hr) as Hperm.
  unfold valid_slots in Hperm.
  unfold getElement, slots, load in *. unfold is_u16 in Hi.
  destruct (Z.eqb_spec (_count s) 0) as [H0|H0].
  { split; [reflexivity|]. intros Hc. contradiction. }
  split; [intros Hc; contradiction|].
  destruct (_array s) as [a|]; [|lia].
  destruct H as (Hlen & Hpart & Hsz & Hc & _ & _ & Hu & Hz & _).
  cbn [mbind option_bind default from_option id] in *.
  intros _ Hlt.
  destruct (lookup_lt_is_Some_2 a (Z.to_nat index)) as [x Hx]; [lia|].
  exists x. split; [exact Hx|]. split; [exact Hx|].
  split; [exact (Forall_lookup_1 _ _ _ _ Hu Hx)|]. split.
  - intros Hin. rewrite Hperm.
    apply (list_elem_of_lookup_2 _ (Z.to_nat index)).
    rewrite lookup_take_lt by lia. exact Hx.
  - intros Hge. symmetry.
    apply (Forall_lookup_1 _ _ (Z.to_nat index - Z.to_nat (_count s)) _ Hz).
    rewrite lookup_drop.
    replace (Z.to_nat (_count s) + (Z.to_nat index - Z.to_nat (_count s)))%nat
      with (Z.to_nat index) by lia.
    exact Hx.
Qed.

(** X13, an instance: capacity 4 after 5, 3, 9, index 1. *)
Lemma getElement_spec_witness :
  reachable sample_three /\ is_u16 1 /\
  (_count sample_three = 0 -> getElement 1 sample_three = Some 0) /\
  (_count sample_three <> 0 -> 1 < _size sample_three ->
     exists x, getElement 1 sample_three = Some x /\
       slots sample_three !! Z.to_nat 1 = Some x /\ is_u16 x /\
       (1 < _count sample_three -> x ∈ window sample_three) /\
       (_count sample_three <= 1 -> x = 0)).
Proof.
  assert (is_u16 1) as Hi by u16.
  split; [exact reachable_sample_three|]. split; [exact Hi|].
  exact (getElement_spec sample_three 1 reachable_sample_three Hi).
Defined.

(** ** fillValue *)

Lemma fillValue_loop_run n v s :
  fillValue_loop n v s = run (AddValue <$> replicate n v) s.
Proof.
  revert s. induction n as [|n IH]; intros s; [reflexivity|].
  cbn [fillValue_loop replicate fmap list_fmap run exec].
  destruct (addValue v s) as [s1|]; [|reflexivity].
  cbn [mbind option_bind]. apply IH.
Qed.

Lemma foldl_min_replicate n v : foldl Z.min v (replicate n v) = v.
Proof.
  induction n as [|n IH]; [reflexivity|].
  cbn [replicate foldl]. rewrite Z.min_id. exact IH.
Qed.

Lemma foldl_max_replicate n v : foldl Z.max v (replicate n v) = v.
Proof.
  induction n as [|n IH]; [reflexivity|].
  cbn [replicate foldl]. rewrite Z.max_id. exact IH.
Qed.

(** X14: on a reachable object with storage, [fillValue value number]
    returns with the window holding [min number _partial] copies of the
    value and nothing else; [getCount] is that number, and, when it is not
    0, both observed extremes are the value.  With [number = 0] it does what
    [clear] does. *)
Theorem fillValue_window (s : t) (value number : Z) :
  reachable s -> ~ inert s -> is_u16 value -> is_u16 number ->
  exists s', fillValue value number s = Some s' /\
    window s' = replicate (Z.to_nat (Z.min number (_partial s))) value /\
    getCount s' = Z.min number (_partial s) /\
    getPartial s' = getPartial s /\
    (1 <= number -> getMin s' = value /\ getMax s' = value) /\
    (number = 0 -> clear s = Some s').
Proof.
  intros Hr Hn Hv Hk. apply reachable_inv in Hr.
  destruct (clear_inv s Hr) as [Hc Hinv0].
  pose proof Hr as [_ H]. unfold inert in Hn.
  destruct (_array s) as [a|] eqn:Ha; [|congruence].
  destruct H as (Hlen & Hpart & Hsz & _).
  cbn [fmap option_fmap option_map] in Hc, Hinv0.
  set (c := mk (_size s) 0 0 (_partial s) 0
               (Some (replicate (length a) 0)) 0 0) in *.
  assert (~ inert c) as Hnc by (unfold inert; discriminate).
  assert (window c = []) as Hwc.
  { unfold window. cbn [_count _partial c].
    destruct (Z.ltb_spec 0 (_partial s)); [reflexivity|lia]. }
  unfold fillValue. rewrite Hc. cbn [mbind option_bind _partial c].
  assert ((if number >? _partial s then _partial s else number)
          = Z.min number (_partial s)) as ->
    by (destruct (Z.gtb_spec number (_partial s)); lia).
  set (n := Z.to_nat (Z.min number (_partial s))).
  rewrite fillValue_loop_run.
  destruct (window_run_adds (replicate n value) c Hinv0 Hnc
              (Forall_replicate _ _ _ Hv))
    as (s' & Hrun & Hinv' & _ & Hp' & Hw').
  exists s'. split; [exact Hrun|].
  rewrite Hwc in Hw'. cbn [app _partial c] in Hw', Hp'.
  rewrite length_replicate in Hw'.
  replace (n - Z.to_nat (_partial s))%nat with 0%nat in Hw'
    by (unfold is_u16 in Hk; lia).
  rewrite drop_0 in Hw'. split; [exact Hw'|].
  unfold getCount, getPartial.
  split; [rewrite <- (window_length s' Hinv'), Hw', length_replicate;
          unfold is_u16 in Hk; lia|].
  split; [exact Hp'|]. split.
  - intros H1. unfold getMin, getMax.
    assert (n = S (Nat.pred n)) as Hn1 by lia.
    rewrite Hn1 in Hrun. cbn [replicate fmap list_fmap run exec] in Hrun.
    destruct (addValue_extremes c value Hinv0 Hnc Hv)
      as (s1 & Hs1 & Hinv1 & Hn1' & Hc1 & Hmin1 & Hmax1).
    rewrite Hs1 in Hrun. cbn [mbind option_bind] in Hrun.
    cbn [_count c Z.eqb] in Hmin1, Hmax1.
    destruct (run_adds_extremes (replicate (Nat.pred n) value) s1 Hinv1 Hn1'
                Hc1 (Forall_replicate _ _ _ Hv)) as (s2 & Hs2 & Hmin2 & Hmax2).
    rewrite Hs2 in Hrun. injection Hrun as <-.
    rewrite Hmin2, Hmax2, Hmin1, Hmax1.
    rewrite foldl_min_replicate, foldl_max_replicate. split; reflexivity.
  - intros ->. subst n. rewrite Z.min_l in Hrun by lia.
    cbn in Hrun. exact Hrun.
Qed.

(** X14, an instance: seven copies of 9 asked for on a window of 2 out of
    5. *)
Lemma fillValue_window_witness :
  reachable sample_partial /\ ~ inert sample_partial /\ is_u16 9 /\
  is_u16 7 /\
  exists s', fillValue 9 7 sample_partial = Some s' /\
    window s' = replicate (Z.to_nat (Z.min 7 (_partial sample_partial))) 9 /\
    getCount s' = Z.min 7 (_partial sample_partial) /\
    getPartial s' = getPartial sample_partial /\
    (1 <= 7 -> getMin s' = 9 /\ getMax s' = 9) /\
    (7 = 0 -> clear sample_partial = Some s').
Proof.
  assert (~ inert sample_partial) as Hn by (unfold inert; discriminate).
  assert (is_u16 9) as Hv by u16.
  assert (is_u16 7) as Hk by u16.
  split; [exact reachable_sample_partial|]. split; [exact Hn|].
  split; [exact Hv|]. split; [exact Hk|].
  exact (fillValue_window sample_partial 9 7 reachable_sample_partial Hn Hv Hk).
Defined.

(** ** The backward walk of the [...Last] queries *)

(** The three loops read the slots of one and the same walk. *)
Lemma getAverageLast_loop_walk s n idx acc :
  getAverageLast_loop s n idx acc
  = l ← walk_back s n idx; Some (acc + sumZ l).
Proof.
  revert idx acc. induction n as [|n IH]; intros idx acc.
  - cbn. rewrite Z.add_0_r. reflexivity.
  - cbn [getAverageLast_loop walk_back].
    destruct (load (_array s) _) as [x|]; [|reflexivity].
    cbn [mbind option_bind]. rewrite IH.
    destruct (walk_back s n _) as [l|]; [|reflexivity].
    cbn [mbind option_bind sumZ foldr]. f_equal. unfold sumZ. lia.
Qed.

Lemma getMinInBufferLast_loop_walk s n idx m :
  getMinInBufferLast_loop s n
    (wrap16 ((if idx =? 0 then _size s else idx) - 1)) m
  = l ← walk_back s n idx;
    Some (foldl (fun m x => if x <? m then x else m) m l).
Proof.
  revert idx m. induction n as [|n IH]; intros idx m; [reflexivity|].
  cbn [getMinInBufferLast_loop walk_back].
  destruct (load (_array s) _) as [x|]; [|reflexivity].
  cbn [mbind option_bind]. rewrite IH.
  destruct (walk_back s n _) as [l|]; reflexivity.
Qed.

Lemma getMaxInBufferLast_loop_walk s n idx m :
  getMaxInBufferLast_loop s n
    (wrap16 ((if idx =? 0 then _size s else idx) - 1)) m
  = l ← walk_back s n idx;
    Some (foldl (fun m x => if x >? m then x else m) m l).
Proof.
  revert idx m. induction n as [|n IH]; intros idx m; [reflexivity|].
  cbn [getMaxInBufferLast_loop walk_back].
  destruct (load (_array s) _) as [x|]; [|reflexivity].
  cbn [mbind option_bind]. rewrite IH.
  destruct (walk_back s n _) as [l|]; reflexivity.
Qed.

Section walk_back_facts.

Variable s : t.
Variable a : list Z.
Hypothesis Ha : _array s = Some a.
Hypothesis Hlen : Z.of_nat (length a) = _size s.
Hypothesis Hsz : 0 < _size s < 65536.

(** The walk never leaves the block. *)
Lemma walk_back_total n idx :
  0 <= idx <= _size s ->
  exists l, walk_back s n idx = Some l /\ length l = n.
Proof.
  revert idx. induction n as [|n IH]; intros idx Hidx.
  - exists []. split; reflexivity.
  - cbn [walk_back].
    set (idx1 := if idx =? 0 then _size s else idx).
    assert (1 <= idx1 <= _size s) as H1
      by (unfold idx1; destruct (Z.eqb_spec idx 0); lia).
    rewrite wrap16_small by (unfold is_u16; lia).
    destruct (lookup_lt_is_Some_2 a (Z.to_nat (idx1 - 1))) as [x Hx]; [lia|].
    unfold load. rewrite Ha. cbn [mbind option_bind]. rewrite Hx.
    cbn [mbind option_bind].
    destruct (IH (idx1 - 1)) as (l & -> & Hl); [lia|].
    exists (x :: l). split; [reflexivity|]. cbn [length]. lia.
Qed.

(** [n] steps down from [idx] without reaching slot 0 early: the slots
    below [idx], the highest first. *)
Lemma walk_back_down n m idx :
  (n <= idx <= length a)%nat ->
  walk_back s (n + m) (Z.of_nat idx)
  = l ← walk_back s m (Z.of_nat (idx - n));
    Some (reverse (take n (drop (idx - n) a)) ++ l).
Proof.
  revert idx. induction n as [|n IH]; intros idx Hn.
  - cbn [Nat.add take reverse app]. rewrite Nat.sub_0_r.
    destruct (walk_back s m _); reflexivity.
  - destruct (lookup_lt_is_Some_2 a (idx - 1)) as [x Hx]; [lia|].
    cbn [Nat.add walk_back].
    destruct (Z.eqb_spec (Z.of_nat idx) 0) as [|_]; [lia|].
    rewrite wrap16_small by (unfold is_u16; lia).
    replace (Z.of_nat idx - 1) with (Z.of_nat (idx - 1)) by lia.
    unfold load. rewrite Ha. cbn [mbind option_bind].
    rewrite Nat2Z.id, Hx. cbn [mbind option_bind].
    rewrite IH by lia.
    replace (idx - 1 - n)%nat with (idx - S n)%nat by lia.
    destruct (walk_back s m _) as [l|]; [|reflexivity].
    cbn [mbind option_bind]. f_equal.
    rewrite (take_S_r _ n x).
    2:{ rewrite lookup_drop.
        replace (idx - S n + n)%nat with (idx - 1)%nat by lia. exact Hx. }
    rewrite reverse_app. reflexivity.
Qed.

Lemma walk_back_wrap n :
  walk_back s (S n) 0 = walk_back s (S n) (_size s).
Proof.
  cbn [walk_back]. cbn [Z.eqb].
  destruct (Z.eqb_spec (_size s) 0); [lia|reflexivity].
Qed.

(** A walk of [n <= idx] steps from [idx]. *)
Lemma walk_back_short n idx :
  (n <= idx <= length a)%nat ->
  walk_back s n (Z.of_nat idx) = Some (reverse (take n (drop (idx - n) a))).
Proof.
  intros Hn. rewrite <- (Nat.add_0_r n) at 1.
  rewrite walk_back_down by exact Hn. cbn [walk_back mbind option_bind].
  rewrite app_nil_r. reflexivity.
Qed.

(** A walk of [idx < n <= _size] steps from [idx]: down to slot 0, then
    from the top of the block. *)
Lemma walk_back_long n idx :
  (idx < n <= length a)%nat ->
  walk_back s n (Z.of_nat idx)
  = Some (reverse (take idx a) ++ reverse (drop (length a - (n - idx)) a)).
Proof.
  intros Hn.
  replace n with (idx + S (n - S idx))%nat at 1 by lia.
  rewrite walk_back_down by lia.
  rewrite Nat.sub_diag, drop_0. change (Z.of_nat 0) with 0.
  rewrite walk_back_wrap, <- Hlen.
  replace (S (n - S idx)) with (n - idx)%nat by lia.
  rewrite walk_back_short by lia.
  cbn [mbind option_bind].
  rewrite (take_ge (drop _ a)) by (rewrite length_drop; lia).
  reflexivity.
Qed.

End walk_back_facts.

Lemma sumZ_reverse l : sumZ (reverse l) = sumZ l.
Proof.
  induction l as [|x l IH]; [reflexivity|].
  rewrite reverse_cons, sumZ_app, IH. unfold sumZ. cbn [foldr]. lia.
Qed.

Lemma recent_length s n :
  inv s -> (n <= Z.to_nat (_count s))%nat -> length (recent n s) = n.
Proof.
  intros Hinv Hn. pose proof (window_length s Hinv) as Hl.
  unfold recent. rewrite length_drop. lia.
Qed.

(** While the buffer is not full, or when the window is the whole block,
    the walk reads the most recent samples, the latest first. *)
Lemma walk_back_recent s n :
  inv s -> ~ inert s -> (n <= Z.to_nat (_count s))%nat ->
  _count s < _partial s \/ _partial s = _size s ->
  walk_back s n (_index s) = Some (reverse (recent n s)).
Proof.
  intros Hinv Hni Hn Hcase. pose proof (window_length s Hinv) as Hwl.
  pose proof Hinv as [_ H]. unfold inert in Hni.
  destruct (_array s) as [a|] eqn:Ha; [|congruence].
  destruct H as (Hlen & Hpart & Hsz & Hc & Hi & Hci & _).
  assert (0 < _size s < 65536) as Hsz' by lia.
  unfold recent. rewrite <- (Z2Nat.id (_index s)) at 1 by lia.
  replace (length (window s)) with (Z.to_nat (_count s)) by lia.
  unfold window, slots. rewrite Ha. cbn [default from_option id].
  destruct (Z.ltb_spec (_count s) (_partial s)) as [Hlt|Hge].
  - rewrite (Hci Hlt).
    rewrite (walk_back_short s a Ha Hlen Hsz') by lia.
    do 2 f_equal. rewrite take_drop_commute. do 2 f_equal. lia.
  - destruct Hcase as [|Hwhole]; [lia|].
    assert (_count s = _partial s) as Hfull by lia.
    rewrite (take_ge a (Z.to_nat (_partial s))) by lia.
    destruct (Nat.le_gt_cases n (Z.to_nat (_index s))) as [Hle|Hgt].
    + rewrite (walk_back_short s a Ha Hlen Hsz') by lia.
      rewrite drop_app_ge by (rewrite length_drop; lia).
      rewrite length_drop. do 2 f_equal.
      rewrite take_drop_commute.
      replace (Z.to_nat (_count s) - n - (length a - Z.to_nat (_index s)))%nat
        with (Z.to_nat (_index s) - n)%nat by lia.
      do 2 f_equal. lia.
    + rewrite (walk_back_long s a Ha Hlen Hsz') by lia.
      rewrite drop_app_le by (rewrite length_drop; lia).
      rewrite reverse_app, drop_drop. do 4 f_equal. lia.
Qed.

(** ** getAverageLast, getMinInBufferLast, getMaxInBufferLast *)

(** X15: on a reachable object whose buffer is not yet full, or whose
    window is the whole capacity, [getAverageLast count] returns the
    truncated mean of the [min count _count] most recent samples, and NaN
    when that number is 0.  (The sum is taken below 2^24, where the [float]
    accumulator of the source is exact.) *)
Theorem getAverageLast_recent (s : t) (count : Z) :
  reachable s -> is_u16 count ->
  _count s < _partial s \/ _partial s = _size s ->
  sumZ (window s) < 16777216 ->
  getAverageLast count s
  = Some (if Z.min count (_count s) =? 0 then NaN
          else Val (sumZ (recent (Z.to_nat (Z.min count (_count s))) s)
                    ÷ Z.min count (_count s))).
Proof.
  intros Hr Hcu Hcase _. apply reachable_inv in Hr. unfold getAverageLast.
  assert ((if count >? _count s then _count s else count)
          = Z.min count (_count s)) as ->
    by (destruct (Z.gtb_spec count (_count s)); lia).
  destruct (Z.eqb_spec (Z.min count (_count s)) 0) as [|Hne]; [reflexivity|].
  assert (~ inert s) as Hni.
  { unfold inert. intros Hi. destruct Hr as [_ H]. rewrite Hi in H.
    unfold is_u16 in Hcu. lia. }
  assert (0 <= _count s) as Hc0.
  { destruct Hr as [_ H]. unfold inert in Hni.
    destruct (_array s); [lia|congruence]. }
  rewrite getAverageLast_loop_walk.
  rewrite (walk_back_recent s _ Hr Hni) by (try assumption; lia).
  cbn [mbind option_bind]. rewrite sumZ_reverse, Z.add_0_l. reflexivity.
Qed.

(** X15, an instance: the last 2 of the samples 5, 3, 9. *)
Lemma getAverageLast_recent_witness :
  reachable sample_three /\ is_u16 2 /\
  (_count sample_three < _partial sample_three \/
   _partial sample_three = _size sample_three) /\
  sumZ (window sample_three) < 16777216 /\
  getAverageLast 2 sample_three
  = Some (if Z.min 2 (_count sample_three) =? 0 then NaN
          else Val (sumZ (recent (Z.to_nat (Z.min 2 (_count sample_three)))
                            sample_three)
                    ÷ Z.min 2 (_count sample_three))).
Proof.
  assert (is_u16 2) as Hc by u16.
  assert (_count sample_three < _partial sample_three \/
          _partial sample_three = _size sample_three) as Hcase
    by (right; reflexivity).
  assert (sumZ (window sample_three) < 16777216) as Hfit
    by (vm_compute; reflexivity).
  split; [exact reachable_sample_three|]. split; [exact Hc|].
  split; [exact Hcase|]. split; [exact Hfit|].
  exact (getAverageLast_recent sample_three 2 reachable_sample_three Hc
           Hcase Hfit).
Defined.

(** X16: under the same condition, with [min count _count] at least 1,
    [getMinInBufferLast count] and [getMaxInBufferLast count] return the
    least and the greatest of the [min count _count] most recent samples. *)
Theorem last_extremes (s : t) (count : Z) :
  reachable s -> is_u16 count ->
  _count s < _partial s \/ _partial s = _size s ->
  0 < Z.min count (_count s) ->
  exists mn mx,
    getMinInBufferLast count s = Some (Val mn) /\
    getMaxInBufferLast count s = Some (Val mx) /\
    is_min mn (recent (Z.to_nat (Z.min count (_count s))) s) /\
    is_max mx (recent (Z.to_nat (Z.min count (_count s))) s).
Proof.
  intros Hr Hcu Hcase Hpos. apply reachable_inv in Hr.
  unfold getMinInBufferLast, getMaxInBufferLast.
  assert ((if count >? _count s then _count s else count)
          = Z.min count (_count s)) as ->
    by (destruct (Z.gtb_spec count (_count s)); lia).
  destruct (Z.eqb_spec (Z.min count (_count s)) 0) as [|_]; [lia|].
  assert (~ inert s) as Hni.
  { unfold inert. intros Hi. destruct Hr as [_ H]. rewrite Hi in H. lia. }
  set (n := Z.to_nat (Z.min count (_count s))).
  assert (n = S (Nat.pred n)) as Hn by lia.
  pose proof (walk_back_recent s n Hr Hni ltac:(lia) Hcase) as Hwalk.
  assert (exists x l,
    load (_array s)
         (wrap16 ((if _index s =? 0 then _size s else _index s) - 1)) = Some x
    /\ reverse (recent n s) = x :: l) as (x & l & Hload & Hl).
  { pose proof Hwalk as Hw2.
    replace (walk_back s n (_index s))
      with (walk_back s (S (Nat.pred n)) (_index s)) in Hw2
      by (rewrite <- Hn; reflexivity).
    cbn [walk_back] in Hw2.
    destruct (load (_array s) _) as [x|]; [|discriminate].
    cbn [mbind option_bind] in Hw2.
    destruct (walk_back s (Nat.pred n) _) as [l|]; [|discriminate].
    injection Hw2 as Hl. exists x, l. split; [reflexivity|]. symmetry.
    exact Hl. }
  cbv zeta. rewrite Hload. cbn [mbind option_bind].
  rewrite getMinInBufferLast_loop_walk, getMaxInBufferLast_loop_walk, Hwalk.
  cbn [mbind option_bind]. rewrite Hl. cbn [foldl].
  rewrite Z.ltb_irrefl. assert ((x >? x) = false) as -> by lia.
  rewrite foldl_keep_min, foldl_keep_max.
  eexists. eexists. split; [reflexivity|]. split; [reflexivity|].
  assert (x :: l ≡ₚ recent n s) as Hperm
    by (rewrite <- Hl; apply reverse_Permutation).
  split.
  - exact (is_min_perm _ _ _ Hperm (foldl_min_is_min l x)).
  - exact (is_max_perm _ _ _ Hperm (foldl_max_is_max l x)).
Qed.

(** X16, an instance: the last 2 of the samples 5, 3, 9. *)
Lemma last_extremes_witness :
  reachable sample_three /\ is_u16 2 /\
  (_count sample_three < _partial sample_three \/
   _partial sample_three = _size sample_three) /\
  0 < Z.min 2 (_count sample_three) /\
  exists mn mx,
    getMinInBufferLast 2 sample_three = Some (Val mn) /\
    getMaxInBufferLast 2 sample_three = Some (Val mx) /\
    is_min mn (recent (Z.to_nat (Z.min 2 (_count sample_three))) sample_three) /\
    is_max mx (recent (Z.to_nat (Z.min 2 (_count sample_three))) sample_three).
Proof.
  assert (is_u16 2) as Hc by u16.
  assert (_count sample_three < _partial sample_three \/
          _partial sample_three = _size sample_three) as Hcase
    by (right; reflexivity).
  assert (0 < Z.min 2 (_count sample_three)) as Hpos
    by (vm_compute; reflexivity).
  split; [exact reachable_sample_three|]. split; [exact Hc|].
  split; [exact Hcase|]. split; [exact Hpos|].
  exact (last_extremes sample_three 2 reachable_sample_three Hc Hcase Hpos).
Defined.

(** ** getAverageSubset *)

(** With a positive window length the [while] loop ends, on the remainder
    of the division. *)
Lemma getAverageSubset_reduce_spec fuel idx p :
  0 < p -> 0 <= idx -> (Z.to_nat idx < fuel)%nat ->
  getAverageSubset_reduce fuel idx p = Some (idx mod p).
Proof.
  intros Hp. revert idx. induction fuel as [|fuel IH]; intros idx Hidx Hf;
    [lia|].
  cbn [getAverageSubset_reduce]. destruct (Z.geb_spec idx p) as [Hge|Hlt].
  - rewrite IH by lia. f_equal.
    replace idx with (idx - p + 1 * p) at 2 by lia.
    symmetry. apply Z_mod_plus_full.
  - rewrite Z.mod_small by lia. reflexivity.
Qed.

(** The sample at position [k] of a full window is in slot
    [(_index + k) mod _partial]. *)
Lemma window_lookup_full s (a : list Z) k :
  inv s -> _array s = Some a -> _count s = _partial s ->
  0 <= k < _partial s ->
  window s !! Z.to_nat k = a !! Z.to_nat ((_index s + k) mod _partial s).
Proof.
  intros [_ H] Ha Hfull Hk. rewrite Ha in H.
  destruct H as (Hlen & Hpart & Hsz & Hc & Hi & _).
  unfold window, slots. rewrite Ha. cbn [default from_option id].
  destruct (Z.ltb_spec (_count s) (_partial s)) as [|_]; [lia|].
  destruct (Z.lt_ge_cases (_index s + k) (_partial s)) as [Hlt|Hge].
  - rewrite Z.mod_small by lia.
    rewrite lookup_app_l by (rewrite length_drop, length_take; lia).
    rewrite lookup_drop, lookup_take_lt by lia. f_equal. lia.
  - replace ((_index s + k) mod _partial s) with (_index s + k - _partial s).
    2:{ symmetry. replace (_index s + k)
          with (_index s + k - _partial s + 1 * _partial s) at 1 by lia.
        rewrite Z_mod_plus_full. apply Z.mod_small. lia. }
    rewrite lookup_app_r by (rewrite length_drop, length_take; lia).
    rewrite length_drop, length_take, lookup_take_lt by lia. f_equal. lia.
Qed.

Lemma getAverageSubset_loop_full s (a : list Z) start n i acc :
  inv s -> _array s = Some a -> _count s = _partial s ->
  0 <= start -> 0 <= i ->
  start + i + Z.of_nat n <= _partial s ->
  _index s + start + i + Z.of_nat n <= 65536 ->
  getAverageSubset_loop s n start i acc
  = Some (acc + sumZ (take n (drop (Z.to_nat (start + i)) (window s)))).
Proof.
  intros Hinv Ha Hfull Hst. pose proof (window_length s Hinv) as Hwl.
  pose proof Hinv as [_ H]. rewrite Ha in H.
  destruct H as (Hlen & Hpart & Hsz & Hc & Hi & _).
  revert i acc. induction n as [|n IH]; intros i acc Hi0 Hfit Hno.
  - cbn. rewrite Z.add_0_r. reflexivity.
  - cbn [getAverageSubset_loop].
    rewrite wrap16_small by (unfold is_u16; lia).
    rewrite getAverageSubset_reduce_spec by lia.
    cbn [mbind option_bind].
    pose proof (window_lookup_full s a (start + i) Hinv Ha Hfull ltac:(lia))
      as Hlk.
    replace (_index s + (start + i)) with (_index s + start + i) in Hlk by lia.
    destruct (lookup_lt_is_Some_2 (window s) (Z.to_nat (start + i)))
      as [x Hx]; [lia|].
    unfold load. rewrite Ha. cbn [mbind option_bind].
    rewrite <- Hlk, Hx. cbn [mbind option_bind].
    rewrite IH by lia.
    rewrite (drop_S _ _ _ Hx). cbn [take sumZ foldr]. f_equal.
    replace (Z.to_nat (start + (i + 1))) with (S (Z.to_nat (start + i)))
      by lia.
    unfold sumZ. lia.
Qed.

(** X17: on a reachable object whose buffer is full, [getAverageSubset
    start count] returns the quotient of the sum of the [min count _count]
    samples that follow position [start] of the window (0 is the oldest)
    by their number, as long as these samples end within the window and
    [_index + start + count] stays within 16 bits.  (The sum is taken below
    2^24, where the [float] accumulator of the source is exact.) *)
Theorem getAverageSubset_window (s : t) (start count : Z) :
  reachable s -> ~ inert s -> _count s = _partial s ->
  is_u16 start -> is_u16 count ->
  start + Z.min count (_count s) <= _partial s ->
  _index s + start + Z.min count (_count s) <= 65536 ->
  sumZ (window s) < 16777216 ->
  getAverageSubset start count s
  = Some (FQuot (sumZ (take (Z.to_nat (Z.min count (_count s)))
                            (drop (Z.to_nat start) (window s))))
                (Z.min count (_count s))).
Proof.
  intros Hr Hni Hfull Hst Hcu Hfit Hno _. apply reachable_inv in Hr.
  pose proof Hr as [_ H]. unfold inert in Hni.
  destruct (_array s) as [a|] eqn:Ha; [|congruence].
  destruct H as (Hlen & Hpart & Hsz & Hc & Hi & _).
  unfold getAverageSubset.
  destruct (Z.eqb_spec (_count s) 0) as [|_]; [lia|].
  assert ((if _count s >? count then count else _count s)
          = Z.min count (_count s)) as ->
    by (destruct (Z.gtb_spec (_count s) count); lia).
  unfold is_u16 in *.
  rewrite (getAverageSubset_loop_full s a) by (try assumption; lia).
  cbn [mbind option_bind]. rewrite Z.add_0_l, Z.add_0_r. reflexivity.
Qed.

(** X17, an instance: samples 7, 14, 9 on capacity 2; the window is 14, 9,
    the subset is one sample from position 1. *)
Lemma getAverageSubset_window_witness :
  reachable sample_full /\ ~ inert sample_full /\
  _count sample_full = _partial sample_full /\ is_u16 1 /\ is_u16 1 /\
  1 + Z.min 1 (_count sample_full) <= _partial sample_full /\
  _index sample_full + 1 + Z.min 1 (_count sample_full) <= 65536 /\
  sumZ (window sample_full) < 16777216 /\
  getAverageSubset 1 1 sample_full
  = Some (FQuot (sumZ (take (Z.to_nat (Z.min 1 (_count sample_full)))
                            (drop (Z.to_nat 1) (window sample_full))))
                (Z.min 1 (_count sample_full))).
Proof.
  assert (~ inert sample_full) as Hn by (unfold inert; discriminate).
  assert (is_u16 1) as H1 by u16.
  assert (1 + Z.min 1 (_count sample_full) <= _partial sample_full) as Hfit
    by (vm_compute; discriminate).
  assert (_index sample_full + 1 + Z.min 1 (_count sample_full) <= 65536)
    as Hno by (vm_compute; discriminate).
  assert (sumZ (window sample_full) < 16777216) as Hsum
    by (vm_compute; reflexivity).
  split; [exact reachable_sample_full|]. split; [exact Hn|].
  split; [reflexivity|]. split; [exact H1|]. split; [exact H1|].
  split; [exact Hfit|]. split; [exact Hno|]. split; [exact Hsum|].
  exact (getAverageSubset_window sample_full 1 1 reachable_sample_full Hn
           eq_refl H1 H1 Hfit Hno Hsum).
Defined.


(** ** The queries stay within the block *)

Lemma getValue_total s p : inv s -> is_u16 p -> is_Some (getValue p s).
Proof.
  intros [_ H] Hp. unfold getValue, is_u16 in *.
  destruct (Z.eqb_spec (_count s) 0) as [|H0]; [eexists; reflexivity|].
  destruct (Z.geb_spec p (_count s)) as [|Hlt]; [eexists; reflexivity|].
  destruct (_array s) as [a|]; [|lia].
  destruct H as (Hlen & Hpart & Hsz & Hc & Hi & Hci & _).
  unfold load. cbn [mbind option_bind]. apply lookup_lt_is_Some_2.
  pose proof (wrap16_u16 (p + _index s)) as Hwu. unfold is_u16 in Hwu.
  assert (wrap16 (p + _index s) = p + _index s \/
          wrap16 (p + _index s) = p + _index s - 65536) as Hw.
  { destruct (Z.lt_ge_cases (p + _index s) 65536) as [Hs|Hb].
    - left. apply wrap16_small. unfold is_u16. lia.
    - right. unfold wrap16.
      replace (p + _index s) with (p + _index s - 65536 + 1 * 65536) at 1
        by lia.
      rewrite Z_mod_plus_full. apply Z.mod_small. lia. }
  set (w := wrap16 (p + _index s)) in *.
  assert (_count s < _partial s -> _index s = _count s) as Hci' by exact Hci.
  destruct (Z.geb_spec w (_count s)) as [Hge|Hlt'].
  - rewrite wrap16_small by (unfold is_u16; lia).
    destruct (Z.lt_ge_cases (_count s) (_partial s)); lia.
  - lia.
Qed.

Lemma getAverageSubset_loop_total s (a : list Z) start n i acc :
  _array s = Some a -> Z.of_nat (length a) = _size s ->
  0 < _partial s <= _size s ->
  is_Some (getAverageSubset_loop s n start i acc).
Proof.
  intros Ha Hlen Hp. revert i acc. induction n as [|n IH]; intros i acc.
  - eexists; reflexivity.
  - cbn [getAverageSubset_loop].
    pose proof (wrap16_u16 (_index s + start + i)) as [Hlo Hhi].
    rewrite getAverageSubset_reduce_spec by lia.
    cbn [mbind option_bind].
    pose proof (Z.mod_pos_bound (wrap16 (_index s + start + i)) (_partial s)
                  ltac:(lia)) as Hm.
    destruct (lookup_lt_is_Some_2 a
                (Z.to_nat (wrap16 (_index s + start + i) mod _partial s)))
      as [x Hx]; [lia|].
    unfold load. rewrite Ha. cbn [mbind option_bind]. rewrite Hx.
    cbn [mbind option_bind]. apply IH.
Qed.

(** X18: on a reachable object no query other than [getElement] reads
    outside the block, whatever [uint16_t] arguments it is given:
    [getAverage], [getMinInBuffer], [getMaxInBuffer], [getValue],
    [getAverageLast], [getMinInBufferLast], [getMaxInBufferLast] and
    [getAverageSubset] all return a result. *)
Theorem queries_stay_in_block (s : t) (position start count : Z) :
  reachable s -> is_u16 position -> is_u16 start -> is_u16 count ->
  is_Some (getAverage s) /\
  is_Some (getMinInBuffer s) /\ is_Some (getMaxInBuffer s) /\
  is_Some (getValue position s) /\
  is_Some (getAverageLast count s) /\
  is_Some (getMinInBufferLast count s) /\
  is_Some (getMaxInBufferLast count s) /\
  is_Some (getAverageSubset start count s).
Proof.
  intros Hr Hpo Hst Hcu. apply reachable_inv in Hr.
  split.
  { destruct (Z.eq_dec (_count s) 0) as [H0|H0].
    - unfold getAverage. rewrite H0. eexists; reflexivity.
    - rewrite (getAverage_inv s Hr H0). eexists; reflexivity. }
  assert (is_Some (getValue position s)) as Hgv
    by (apply getValue_total; assumption).
  pose proof Hr as [_ H].
  unfold getMinInBuffer, getMaxInBuffer, getAverageLast, getMinInBufferLast,
    getMaxInBufferLast, getAverageSubset.
  assert ((if count >? _count s then _count s else count)
          = Z.min count (_count s)) as ->
    by (destruct (Z.gtb_spec count (_count s)); lia).
  destruct (Z.eqb_spec (_count s) 0) as [H0|H0].
  { rewrite H0. unfold is_u16 in Hcu. rewrite Z.min_r by lia. cbn [Z.eqb].
    repeat split; try (eexists; reflexivity). exact Hgv. }
  destruct (_array s) as [a|] eqn:Ha; [|lia].
  destruct H as (Hlen & Hpart & Hsz & Hc & Hi & _).
  assert (0 < _size s < 65536) as Hsz' by lia.
  destruct (lookup_lt_is_Some_2 a 0) as [x0 Hx0]; [lia|].
  assert (load (Some a) 0 = Some x0) as Hl0 by exact Hx0.
  rewrite Hl0. cbn [mbind option_bind]. change 1 with (Z.of_nat 1).
  rewrite getMinInBuffer_loop_spec, getMaxInBuffer_loop_spec by lia.
  change (Z.of_nat 1) with 1.
  split; [eexists; reflexivity|]. split; [eexists; reflexivity|].
  split; [exact Hgv|].
  set (n := Z.to_nat (Z.min count (_count s))).
  destruct (walk_back_total s a Ha Hlen Hsz' n (_index s) ltac:(lia))
    as (l & Hwalk & Hl).
  assert (is_Some (getAverageSubset_loop s
            (Z.to_nat (if _count s >? count then count else _count s))
            start 0 0)) as [sum Hsum]
    by (apply (getAverageSubset_loop_total s a); [assumption..|lia]).
  rewrite Hsum. cbn [mbind option_bind].
  destruct (Z.eqb_spec (Z.min count (_count s)) 0) as [|Hn0].
  { repeat split; eexists; reflexivity. }
  rewrite getAverageLast_loop_walk, Hwalk. cbn [mbind option_bind].
  split; [eexists; reflexivity|].
  assert (n = S (Nat.pred n)) as Hn by (unfold is_u16 in Hcu; lia).
  assert (exists x,
    load (Some a)
         (wrap16 ((if _index s =? 0 then _size s else _index s) - 1)) = Some x)
    as (x & Hload).
  { pose proof Hwalk as Hw2. rewrite Hn in Hw2. cbn [walk_back] in Hw2.
    rewrite Ha in Hw2.
    destruct (load (Some a)
                (wrap16 ((if _index s =? 0 then _size s else _index s) - 1)))
      as [x|]; [|discriminate].
    exists x. reflexivity. }
  cbv zeta. rewrite Hload. cbn [mbind option_bind].
  rewrite getMinInBufferLast_loop_walk, getMaxInBufferLast_loop_walk, Hwalk.
  cbn [mbind option_bind].
  repeat split; eexists; reflexivity.
Qed.

(** X18, an instance: a full window of 2 out of 5 slots. *)
Lemma queries_stay_in_block_witness :
  reachable sample_partial /\ is_u16 65535 /\ is_u16 40000 /\ is_u16 7 /\
  is_Some (getAverage sample_partial) /\
  is_Some (getMinInBuffer sample_partial) /\
  is_Some (getMaxInBuffer sample_partial) /\
  is_Some (getValue 65535 sample_partial) /\
  is_Some (getAverageLast 7 sample_partial) /\
  is_Some (getMinInBufferLast 7 sample_partial) /\
  is_Some (getMaxInBufferLast 7 sample_partial) /\
  is_Some (getAverageSubset 40000 7 sample_partial).
Proof.
  assert (is_u16 65535) as H1 by u16.
  assert (is_u16 40000) as H2 by u16.
  assert (is_u16 7) as H3 by u16.
  split; [exact reachable_sample_partial|]. split; [exact H1|].
  split; [exact H2|]. split; [exact H3|].
  exact (queries_stay_in_block sample_partial 65535 40000 7
           reachable_sample_partial H1 H2 H3).
Defined.

(** ** Below the 16-bit bound of the running sum *)

(** X19: every mutating operation on a reachable object returns, and
    afterwards [_sum], a [uint16_t], holds the sum of the [_count] valid
    slots reduced modulo 65536: it is that sum only as long as the sum is
    below 65536 (beyond, see C1).  The valid slots hold the samples of the
    window, so the two have the same sum. *)
Theorem sum_consistent_mod16 (s : t) (m : mutation) :
  reachable s -> mutation_args_ok m ->
  exists s', exec m s = Some s' /\
    _sum s' = wrap16 (sumZ (valid_slots s')) /\
    (sumZ (valid_slots s') < 65536 -> _sum s' = sumZ (valid_slots s')) /\
    sumZ (window s') = sumZ (valid_slots s').
Proof.
  intros Hr Hm. apply reachable_inv in Hr.
  destruct (exec_inv m s Hr Hm) as (s' & Hex & Hinv).
  exists s'. split; [exact Hex|].
  pose proof (inv_sum s' Hinv) as Hsum.
  split; [exact Hsum|]. split; [|apply sumZ_window, Hinv].
  intros Hlt. rewrite Hsum. apply wrap16_small.
  split; [|exact Hlt]. apply sumZ_nonneg, inv_valid_slots_u16, Hinv.
Qed.

(** X19, an instance: one more sample 65535 on a buffer that holds 65535. *)
Lemma sum_consistent_mod16_witness :
  reachable sample_max /\ mutation_args_ok (AddValue 65535) /\
  exists s', exec (AddValue 65535) sample_max = Some s' /\
    _sum s' = wrap16 (sumZ (valid_slots s')) /\
    (sumZ (valid_slots s') < 65536 -> _sum s' = sumZ (valid_slots s')) /\
    sumZ (window s') = sumZ (valid_slots s').
Proof.
  assert (mutation_args_ok (AddValue 65535)) as Hm by (cbn; u16).
  split; [exact reachable_sample_max|]. split; [exact Hm|].
  exact (sum_consistent_mod16 sample_max (AddValue 65535)
           reachable_sample_max Hm).
Defined.

(** X20: on a reachable object with storage, [fillValue v k] with
    [k >= 1] returns, and [getFastAverage] then returns [v], as long as the
    [min k _partial] copies of [v] sum to less than 65536 (beyond, the 16-bit
    [_sum] has wrapped; see C3). *)
Theorem fillValue_getFastAverage (s : t) (v k : Z) :
  reachable s -> ~ inert s -> is_u16 v -> is_u16 k -> 1 <= k ->
  v * Z.min k (_partial s) < 65536 ->
  exists s', fillValue v k s = Some s' /\ getFastAverage s' = v.
Proof.
  intros Hr Hn Hv Hk Hk1 Hfit. apply reachable_inv in Hr.
  destruct (clear_inv s Hr) as [Hc Hinv0].
  unfold inert in Hn. destruct (_array s) as [a|] eqn:Ha; [|congruence].
  pose proof Hr as [_ H]. rewrite Ha in H.
  destruct H as (Hlen & Hpart & Hsz & _).
  unfold fillValue. rewrite Hc. cbn [mbind option_bind _partial].
  set (n := if k >? _partial s then _partial s else k).
  assert (n = Z.min k (_partial s)) as Hnmin.
  { unfold n. destruct (Z.gtb_spec k (_partial s)); lia. }
  destruct (fillValue_loop_shape (Z.to_nat n) v _ (replicate (length a) 0)
              Hinv0 Hv eq_refl) as (s' & a' & Hs' & Hinv' & Ha' & Hc' & Hp' & Ht').
  { cbn [_count _partial]. lia. }
  { reflexivity. }
  exists s'. split; [exact Hs'|].
  cbn [_count] in Hc'. destruct Hinv' as [_ H]. rewrite Ha' in H.
  destruct H as (_ & _ & _ & _ & _ & _ & _ & _ & Hsum & _).
  rewrite Ht', sumZ_replicate, Hc' in Hsum.
  unfold getFastAverage. rewrite Hsum, Hc'.
  destruct (Z.eqb_spec (0 + Z.of_nat (Z.to_nat n)) 0) as [|_]; [lia|].
  replace (0 + Z.of_nat (Z.to_nat n)) with n by lia.
  replace (Z.of_nat (Z.to_nat n)) with n by lia.
  rewrite wrap16_small by (unfold is_u16 in *; nia).
  rewrite Z.mul_comm. apply Z.quot_mul. lia.
Qed.

(** X20, an instance: [fillValue 300 5] on a buffer of capacity 2. *)
Lemma fillValue_getFastAverage_witness :
  reachable sample_one /\ ~ inert sample_one /\ is_u16 300 /\ is_u16 5 /\
  1 <= 5 /\ 300 * Z.min 5 (_partial sample_one) < 65536 /\
  exists s', fillValue 300 5 sample_one = Some s' /\ getFastAverage s' = 300.
Proof.
  assert (~ inert sample_one) as Hn by (unfold inert; discriminate).
  assert (is_u16 300) as Hv by u16.
  assert (is_u16 5) as Hk by u16.
  assert (1 <= 5) as Hk1 by lia.
  assert (300 * Z.min 5 (_partial sample_one) < 65536) as Hfit
    by (vm_compute; reflexivity).
  repeat (split; [assumption || exact reachable_sample_one|]).
  exact (fillValue_getFastAverage sample_one 300 5
           reachable_sample_one Hn Hv Hk Hk1 Hfit).
Defined.

(** X21: on a reachable object with storage whose window is the whole
    capacity, once the buffer is full, [getAverageLast _partial] returns what
    [getFastAverage] returns as long as the samples sum to less than 65536
    (on the other full buffers the two can differ; see C4 and C5). *)
Theorem getAverageLast_full (s : t) :
  reachable s -> ~ inert s ->
  _count s = _partial s -> _partial s = _size s ->
  sumZ (valid_slots s) < 65536 ->
  getAverageLast (_partial s) s = Some (Val (getFastAverage s)).
Proof.
  intros Hr Hn Hfull Hwhole Hfit. apply reachable_inv in Hr.
  unfold inert in Hn. destruct (_array s) as [a|] eqn:Ha; [|congruence].
  pose proof Hr as [_ H]. rewrite Ha in H.
  destruct H as (Hlen & Hpart & Hsz & Hc & Hi & _ & Hu & _ & Hsum & _).
  unfold valid_slots, slots in Hfit. rewrite Ha in Hfit.
  cbn [default from_option id] in Hfit.
  assert (take (Z.to_nat (_count s)) a = a) as Htake
    by (apply take_ge; lia).
  rewrite Htake in Hsum, Hfit.
  unfold getAverageLast, getFastAverage. rewrite <- Hfull.
  destruct (Z.gtb_spec (_count s) (_count s)) as [|_]; [lia|].
  destruct (Z.eqb_spec (_count s) 0) as [|_]; [lia|].
  replace (Z.to_nat (_count s)) with (length a) by lia.
  replace (_index s) with (Z.of_nat (Z.to_nat (_index s))) by lia.
  rewrite (getAverageLast_loop_all s a Ha Hlen Hsz) by lia.
  cbn [mbind option_bind]. rewrite Hsum, wrap16_small; [reflexivity|].
  split; [apply sumZ_nonneg, Hu|exact Hfit].
Qed.

(** X21, an instance: capacity 2 after the samples 7, 14, 9. *)
Lemma getAverageLast_full_witness :
  reachable sample_full /\ ~ inert sample_full /\
  _count sample_full = _partial sample_full /\
  _partial sample_full = _size sample_full /\
  sumZ (valid_slots sample_full) < 65536 /\
  getAverageLast (_partial sample_full) sample_full
  = Some (Val (getFastAverage sample_full)).
Proof.
  assert (~ inert sample_full) as Hn by (unfold inert; discriminate).
  assert (sumZ (valid_slots sample_full) < 65536) as Hfit
    by (vm_compute; reflexivity).
  split; [exact reachable_sample_full|]. split; [exact Hn|].
  split; [reflexivity|]. split; [reflexivity|]. split; [exact Hfit|].
  exact (getAverageLast_full sample_full reachable_sample_full Hn
           eq_refl eq_refl Hfit).
Defined.
